(** * CXXRTL testbench for viterbi_top: a shallow embedding

    The testbench [viterbi_cxxrtl_tb.cpp] reads stimulus characters from
    standard input, writes them to the two input ports of the simulated
    design, clocks the design and prints the data output whenever the design
    flags it valid.  The design itself ([cxxrtl_design::p_top]) is generated
    code; here it is a parameter: a record of ports, a hidden state and an
    evaluation function.

    C++ [int] values are integers of [Z]; no computation of the testbench
    leaves the range of [int] before 2^31 trace samples have been taken. *)

From Stdlib Require Import ZArith List String Ascii Lia Bool DecimalString.
From Stdlib.Strings Require Import Byte.
Import ListNotations.
Open Scope Z_scope.

(** ** CXXRTL values and the design under test *)

(** Modelled from the spec: [value<Bits>::set] belongs to the CXXRTL runtime
    ([backends/cxxrtl/cxxrtl.h]), which is not part of the sources.  The spec
    says that a value written into a port is masked to the bit width of that
    port. *)
Definition value_set (Bits : Z) (v : Z) : Z := Z.land v (Z.ones Bits).

(** The ports of [cxxrtl_design::p_top] the testbench touches, and the rest of
    the design's state.  A port holds a value of its width; the two outputs
    are read with [get<unsigned int>()], which CXXRTL accepts for widths of
    at most 32 bits only, so what is read is the value of the port. *)
Record p_top (S : Type) : Type := mk_top {
  p_clk : Z;
  p_sync__tb__clk : Z;
  p_x0 : Z;
  p_x1 : Z;
  p_data : Z;
  p_data__valid : Z;
  p_state : S
}.
Arguments mk_top {S}.
Arguments p_clk {S}.
Arguments p_sync__tb__clk {S}.
Arguments p_x0 {S}.
Arguments p_x1 {S}.
Arguments p_data {S}.
Arguments p_data__valid {S}.
Arguments p_state {S}.

(** A design: the widths of its two stimulus ports, its state after
    construction and what one [step()] computes from the input ports and the
    state: the next state and the two outputs. *)
Record design : Type := mk_design {
  dstate : Type;
  x0_bits : Z;
  x1_bits : Z;
  reset : p_top dstate;
  eval : p_top dstate -> dstate * Z * Z
}.

(** The two ports [viterbi_getc_value] is instantiated at: [&top.p_x0] and
    [&top.p_x1]. *)
Inductive port : Type := X0 | X1.

(** What the testbench does to its environment, in order. *)
Inductive event : Type :=
| EvGetchar (c : Z)
| EvSet (val : port) (value : Z)
| EvClk (sync_clk : Z)
| EvTbClk (v : Z)
| EvStep
| EvGet (out_data out_data_valid : Z)
| EvCout (out_data : Z)
| EvSample (j : Z).

Definition is_step (e : event) : bool :=
  match e with EvStep => true | _ => false end.
Definition is_sample (e : event) : bool :=
  match e with EvSample _ => true | _ => false end.
Definition is_getchar (e : event) : bool :=
  match e with EvGetchar _ => true | _ => false end.
Definition is_set (e : event) : bool :=
  match e with EvSet _ _ => true | _ => false end.
Definition is_clk (e : event) : bool :=
  match e with EvClk _ => true | _ => false end.
Definition is_clk_high (e : event) : bool :=
  match e with EvClk l => l =? 1 | _ => false end.
Definition is_get (e : event) : bool :=
  match e with EvGet _ _ => true | _ => false end.

Definition count (f : event -> bool) (l : list event) : Z :=
  Z.of_nat (List.length (filter f l)).

(** [getchar()] returns this at the end of the input. *)
Definition EOF : Z := -1.

(** A byte of the input as [getchar()] returns it: an [unsigned char] value
    converted to [int]. *)
Definition code (b : byte) : Z := Z.of_N (Byte.to_N b).

(** Conversion of an [int] to [unsigned int]. *)
Definition to_unsigned (z : Z) : Z := z mod 2 ^ 32.

(** [std::cout << out_data << std::endl] prints an [unsigned int] in decimal
    and ends the line. *)
Definition newline : string := String (ascii_of_nat 10) EmptyString.
Definition decimal (z : Z) : string :=
  NilZero.string_of_uint (N.to_uint (Z.to_N z)).

Section Testbench.

Variable D : design.

Abbreviation top_t := (p_top (dstate D)).

(** [top->step()]: the input ports keep their values. *)
Definition step (t : top_t) : top_t :=
  let '(s, d, v) := eval D t in
  mk_top (p_clk t) (p_sync__tb__clk t) (p_x0 t) (p_x1 t) d v s.

Definition with_clk (v : Z) (t : top_t) : top_t :=
  mk_top v (p_sync__tb__clk t) (p_x0 t) (p_x1 t)
         (p_data t) (p_data__valid t) (p_state t).
Definition with_tb_clk (v : Z) (t : top_t) : top_t :=
  mk_top (p_clk t) v (p_x0 t) (p_x1 t)
         (p_data t) (p_data__valid t) (p_state t).
Definition with_x0 (v : Z) (t : top_t) : top_t :=
  mk_top (p_clk t) (p_sync__tb__clk t) v (p_x1 t)
         (p_data t) (p_data__valid t) (p_state t).
Definition with_x1 (v : Z) (t : top_t) : top_t :=
  mk_top (p_clk t) (p_sync__tb__clk t) (p_x0 t) v
         (p_data t) (p_data__valid t) (p_state t).

Definition port_bits (val : port) : Z :=
  match val with X0 => x0_bits D | X1 => x1_bits D end.
Definition port_get (val : port) (t : top_t) : Z :=
  match val with X0 => p_x0 t | X1 => p_x1 t end.
Definition port_write (val : port) (v : Z) (t : top_t) : top_t :=
  match val with X0 => with_x0 v t | X1 => with_x1 v t end.

(** Modelled from the spec: [vcd_writer] belongs to the CXXRTL runtime
    ([cxxrtl_vcd.h]).  The spec describes its buffer as an append-only
    sequence of entries, a logical time with a snapshot of the signals. *)
Record vcd_writer : Type := mk_vcd {
  vcd_items : bool;
  buffer : list (Z * top_t)
}.

(** Everything the testbench reads and writes. *)
Record world : Type := mk_world {
  top : top_t;
  w : vcd_writer;
  stdin : list byte;
  stdout : string;
  files : list (string * list (Z * top_t));
  log : list event
}.

Definition emit (e : event) (x : world) : world :=
  mk_world (top x) (w x) (stdin x) (stdout x) (files x) (log x ++ [e]).
Definition upd_top (f : top_t -> top_t) (x : world) : world :=
  mk_world (f (top x)) (w x) (stdin x) (stdout x) (files x) (log x).
Definition with_stdin (s : list byte) (x : world) : world :=
  mk_world (top x) (w x) s (stdout x) (files x) (log x).
Definition with_w (v : vcd_writer) (x : world) : world :=
  mk_world (top x) v (stdin x) (stdout x) (files x) (log x).
Definition print (s : string) (x : world) : world :=
  mk_world (top x) (w x) (stdin x) (stdout x ++ s)%string (files x) (log x).
Definition write_file (path : string) (x : world) : world :=
  mk_world (top x) (w x) (stdin x) (stdout x)
           (files x ++ [(path, buffer (w x))]) (log x).

(** The state of the process before [main] runs on the input [input]. *)
Definition init_world (input : list byte) : world :=
  mk_world (reset D) (mk_vcd false []) input EmptyString [] [].

(** ** Computations: a state monad over [world] that can run out of fuel *)

Inductive res (A : Type) : Type :=
| Ok (a : A) (x : world)
| Timeout (x : world).
Arguments Ok {A}.
Arguments Timeout {A}.

Definition M (A : Type) : Type := world -> res A.

Definition ret {A} (a : A) : M A := fun x => Ok a x.
Definition bind {A B} (m : M A) (k : A -> M B) : M B :=
  fun x => match m x with
           | Ok a x' => k a x'
           | Timeout x' => Timeout x'
           end.
Definition timeout {A} : M A := fun x => Timeout x.
Definition act (f : world -> world) : M unit := fun x => Ok tt (f x).

Definition final {A} (r : res A) : world :=
  match r with Ok _ x => x | Timeout x => x end.
Definition returned {A} (r : res A) : option A :=
  match r with Ok a _ => Some a | Timeout _ => None end.

Notation "x <- m ;; k" := (bind m (fun x => k))
  (at level 61, m at next level, right associativity).
Notation "' p <- m ;; k" := (bind m (fun x => match x with p => k end))
  (at level 61, p pattern, m at next level, right associativity).
Notation "m ;;; k" := (bind m (fun _ => k))
  (at level 61, right associativity).

(** ** The primitives *)

(** [getchar()]: the next byte as a value of 0..255, or [EOF] at the end of
    the input, again and again. *)
Definition getchar : M Z :=
  fun x => match stdin x with
           | [] => Ok EOF (emit (EvGetchar EOF) x)
           | b :: s =>
               let c := code b in
               Ok c (emit (EvGetchar c) (with_stdin s x))
           end.

(** [val->set(value)] *)
Definition set (val : port) (value : Z) : M unit :=
  act (fun x => emit (EvSet val value)
                  (upd_top (port_write val (value_set (port_bits val) value)) x)).

Definition set_p_clk (v : Z) : M unit :=
  act (fun x => emit (EvClk v) (upd_top (with_clk v) x)).
Definition set_p_sync__tb__clk (v : Z) : M unit :=
  act (fun x => emit (EvTbClk v) (upd_top (with_tb_clk v) x)).
Definition top_step : M unit :=
  act (fun x => emit EvStep (upd_top step x)).
(** [top->p_data.get<unsigned int>()] and
    [top->p_data__valid.get<unsigned int>()] *)
Definition get_outputs : M (Z * Z) :=
  fun x => let d := p_data (top x) in
           let v := p_data__valid (top x) in
           Ok (d, v) (emit (EvGet d v) x).
Definition cout_endl (out_data : Z) : M unit :=
  act (fun x => emit (EvCout out_data)
                  (print (decimal out_data ++ newline)%string x)).
(** [w.add(items)] and [w.sample(j)] *)
Definition w_add : M unit :=
  act (fun x => with_w (mk_vcd true (buffer (w x))) x).
Definition w_sample (j : Z) : M unit :=
  act (fun x => emit (EvSample j)
                  (with_w (mk_vcd (vcd_items (w x))
                                  (buffer (w x) ++ [(j, top x)])) x)).

(** ** The testbench *)

Definition viterbi_clock_and_output (sync_clk : Z) : M Z :=
  set_p_clk sync_clk ;;;
  top_step ;;;
  set_p_sync__tb__clk 0 ;;;
  top_step ;;;
  set_p_sync__tb__clk 1 ;;;
  '(out_data, out_data_valid) <- get_outputs ;;
  (if out_data_valid =? 1 then cout_endl out_data else ret tt) ;;;
  ret 0.

(** The [while (1)] loop: one unit of fuel for each [getchar()]. *)
Fixpoint viterbi_getc_value (fuel : nat) (val : port) : M Z :=
  match fuel with
  | O => timeout
  | S fuel' =>
      c <- getchar ;;
      if (c >=? 48) && (c <? 58) then
        let value := to_unsigned (c - 48) in
        set val value ;;;
        ret 0
      else if (c >=? 97) && (c <? 123) then
        let value := to_unsigned (c - 97) in
        set val value ;;;
        ret 0
      else if c <=? 32 then
        viterbi_getc_value fuel' val
      else
        ret (-1)
  end.

(** The [for] loop of [main]: one unit of [fuel] for each test of [i < 256];
    [gfuel] is the fuel of each call of [viterbi_getc_value].  The loop gives
    back the final [input] and [j]. *)
Fixpoint main_loop (fuel gfuel : nat) (capture_vcd i input j : Z)
  : M (Z * Z) :=
  match fuel with
  | O => timeout
  | S fuel' =>
      if i <? 256 then
        '(input, i) <-
          (if input =? 0 then
             input <- viterbi_getc_value gfuel X0 ;;
             if input =? 0 then
               input <- viterbi_getc_value gfuel X1 ;;
               ret (input, 0)
             else ret (input, i)
           else ret (input, i)) ;;
        j <- (if capture_vcd =? 1
              then w_sample j ;;; ret (j + 1) else ret j) ;;
        viterbi_clock_and_output 0 ;;;
        j <- (if capture_vcd =? 1
              then w_sample j ;;; ret (j + 1) else ret j) ;;
        viterbi_clock_and_output 1 ;;;
        main_loop fuel' gfuel capture_vcd (i + 1) input j
      else ret (input, j)
  end.

(** Lines 76 to 86, the first statement of the body of the loop, on its own
    for the statements: it gives back the new [input] and [i]. *)
Definition refill (gfuel : nat) (i input : Z) : M (Z * Z) :=
  if input =? 0 then
    input <- viterbi_getc_value gfuel X0 ;;
    if input =? 0 then
      input <- viterbi_getc_value gfuel X1 ;;
      ret (input, 0)
    else ret (input, i)
  else ret (input, i).

Definition main (fuel : nat) (argc : Z) (argv : list string) : M Z :=
  let input := 0 in
  let capture_vcd := 0 in
  let j := 0 in
  capture_vcd <- (if argc >? 1 then w_add ;;; ret 1 else ret capture_vcd) ;;
  main_loop fuel fuel capture_vcd 0 input j ;;;
  (if capture_vcd =? 1 then
     act (print ("Writing " ++ nth 1 argv EmptyString ++ newline)%string) ;;;
     act (write_file (nth 1 argv EmptyString))
   else ret tt) ;;;
  ret 0.

(** ** What the calls do, as functions on the world

    The functions below are for the statements: the world after a read, a
    write to a port, a sample and a half-tick, and what a whole iteration of
    the loop of [main] does once the stimulus is in the ports. *)

Definition read (c : Z) (s : list byte) (x : world) : world :=
  emit (EvGetchar c) (with_stdin s x).

(** The world after the bytes [ws] have been read, with [s] left. *)
Definition consumed (ws s : list byte) (x : world) : world :=
  mk_world (top x) (w x) s (stdout x) (files x)
           (log x ++ map (fun b => EvGetchar (code b)) ws).

Definition wrote (val : port) (value : Z) (x : world) : world :=
  emit (EvSet val value)
       (upd_top (port_write val (value_set (port_bits val) value)) x).

Definition sampled (j : Z) (x : world) : world :=
  emit (EvSample j)
       (with_w (mk_vcd (vcd_items (w x)) (buffer (w x) ++ [(j, top x)])) x).

(** The design after the five port and step operations of a half-tick. *)
Definition clocked (sync_clk : Z) (t : top_t) : top_t :=
  with_tb_clk 1 (step (with_tb_clk 0 (step (with_clk sync_clk t)))).

Definition gate_events (t : top_t) : list event :=
  EvGet (p_data t) (p_data__valid t)
  :: (if p_data__valid t =? 1 then [EvCout (p_data t)] else []).

Definition gate_line (out_data out_data_valid : Z) : string :=
  if out_data_valid =? 1 then (decimal out_data ++ newline)%string
  else EmptyString.

Definition half_tick_events (sync_clk : Z) (t : top_t) : list event :=
  [EvClk sync_clk; EvStep; EvTbClk 0; EvStep; EvTbClk 1]
  ++ gate_events (clocked sync_clk t).

Definition half_tick (sync_clk : Z) (x : world) : world :=
  let t := clocked sync_clk (top x) in
  mk_world t (w x) (stdin x)
           (stdout x ++ gate_line (p_data t) (p_data__valid t))%string
           (files x)
           (log x ++ half_tick_events sync_clk (top x)).

Definition sample_if (capture_vcd : Z) (jx : Z * world) : Z * world :=
  if capture_vcd =? 1 then (fst jx + 1, sampled (fst jx) (snd jx)) else jx.

(** Lines 88 to 102: a full tick, with its two samples when capturing. *)
Definition full_tick (capture_vcd : Z) (jx : Z * world) : Z * world :=
  let jx := sample_if capture_vcd jx in
  let jx := (fst jx, half_tick 0 (snd jx)) in
  let jx := sample_if capture_vcd jx in
  (fst jx, half_tick 1 (snd jx)).

Definition ticks (n : nat) (capture_vcd : Z) (jx : Z * world) : Z * world :=
  Nat.iter n (full_tick capture_vcd) jx.

(** The design after a full tick. *)
Definition tick_top (t : top_t) : top_t := clocked 1 (clocked 0 t).

(** The events of a full tick that starts with the design [t] and the
    sample counter [j]. *)
Definition tick_events (capture_vcd j : Z) (t : top_t) : list event :=
  (if capture_vcd =? 1 then [EvSample j] else [])
  ++ half_tick_events 0 t
  ++ (if capture_vcd =? 1 then [EvSample (j + 1)] else [])
  ++ half_tick_events 1 (clocked 0 t).

(** What a call of the decoder may change: the input, the two stimulus ports
    and the log, by reads and writes only. *)
Definition decoder_event (e : event) : bool := is_getchar e || is_set e.

Definition decoder_frame (x x' : world) : Prop :=
  stdout x' = stdout x
  /\ w x' = w x
  /\ files x' = files x
  /\ exists l, log x' = log x ++ l /\ forallb decoder_event l = true.

End Testbench.

Arguments Ok {D A}.
Arguments Timeout {D A}.
Arguments final {D A}.
Arguments returned {D A}.
Arguments top {D}.
Arguments w {D}.
Arguments stdin {D}.
Arguments stdout {D}.
Arguments files {D}.
Arguments log {D}.
Arguments buffer {D}.

(** ** Classes of input bytes, and the symbols of an input *)

Definition is_digit (c : Z) : bool := (48 <=? c) && (c <=? 57).
Definition is_letter (c : Z) : bool := (97 <=? c) && (c <=? 122).
Definition is_blank (c : Z) : bool := c <=? 32.
Definition is_stop (c : Z) : bool :=
  negb (is_digit c) && negb (is_letter c) && negb (is_blank c).

(** The value of a meaningful character. *)
Definition symbol_value (c : Z) : Z :=
  if is_digit c then c - 48 else c - 97.

(** The values of the meaningful characters of an input, up to its first
    stop byte. *)
Fixpoint symbols (s : list byte) : list Z :=
  match s with
  | [] => []
  | b :: s' =>
      let c := code b in
      if is_digit c || is_letter c then symbol_value c :: symbols s'
      else if is_blank c then symbols s'
      else []
  end.

(** [blanks_inserted s s']: [s'] is [s] with blank bytes inserted. *)
Inductive blanks_inserted : list byte -> list byte -> Prop :=
| bi_nil : blanks_inserted [] []
| bi_keep b s s' : blanks_inserted s s' -> blanks_inserted (b :: s) (b :: s')
| bi_blank b s s' :
    is_blank (code b) = true -> blanks_inserted s s' ->
    blanks_inserted s (b :: s').

(** [calls] successive calls of the decoder on the port [val], up to the
    first one that does not report success; the result is the world after
    the last call. *)
Fixpoint decode_calls (D : design) (calls fuel : nat) (val : port)
  (x : world D) : world D :=
  match calls with
  | O => x
  | S n =>
      match viterbi_getc_value D fuel val x with
      | Ok a x' => if a =? 0 then decode_calls D n fuel val x' else x'
      | Timeout x' => x'
      end
  end.

(** The values the decoder has written, in order. *)
Fixpoint written (l : list event) : list Z :=
  match l with
  | [] => []
  | EvSet _ v :: l' => v :: written l'
  | _ :: l' => written l'
  end.

(** What the output gate prints for the output reads of a log. *)
Fixpoint gate_output (l : list event) : string :=
  match l with
  | [] => EmptyString
  | EvGet d v :: l' => (gate_line d v ++ gate_output l')%string
  | _ :: l' => gate_output l'
  end.

(** ** A small design to run the testbench on

    Ports of five bits; the data output is [10 * x0 + x1] and is flagged valid
    while the clock is high; the state counts the steps. *)
Definition toy_eval (t : p_top Z) : Z * Z * Z :=
  (p_state t + 1, 10 * p_x0 t + p_x1 t, p_clk t).

Definition toy : design :=
  mk_design Z 5 5 (mk_top 0 0 0 0 0 0 0) toy_eval.

(** The same with ports of one bit. *)
Definition narrow : design :=
  mk_design Z 1 1 (mk_top 0 0 0 0 0 0 0) toy_eval.

Definition bytes (s : string) : list byte := list_byte_of_string s.

Definition run_toy (fuel : nat) (argc : Z) (argv : list string)
  (input : string) : res toy Z :=
  main toy fuel argc argv (init_world toy (bytes input)).

(** ** Whole runs: what is written, sampled and clocked *)

(** The writes to the stimulus ports of a log, in order. *)
Fixpoint sets (l : list event) : list (port * Z) :=
  match l with
  | [] => []
  | EvSet val v :: l' => (val, v) :: sets l'
  | _ :: l' => sets l'
  end.

(** Values dealt to the two ports in turn, X0 first. *)
Fixpoint assign (vs : list Z) : list (port * Z) :=
  match vs with
  | [] => []
  | [v] => [(X0, v)]
  | v0 :: v1 :: r => (X0, v0) :: (X1, v1) :: assign r
  end.



(** The full ticks of the loop entered with the counter [i] and [input] 0
    when [m] symbols are ahead of the first stop byte: a tick for each pair
    read, 256 more when a pair is cut short (the counter has been reset),
    and the rest of the count when the stop byte comes first. *)
Fixpoint run_ticks (i : Z) (m : nat) : Z :=
  match m with
  | O => 256 - i
  | S O => 256
  | S (S m') => 1 + run_ticks 1 m'
  end.

Definition has_stop (s : list byte) : bool :=
  existsb (fun b => is_stop (code b)) s.

Definition has_nonblank (s : list byte) : bool :=
  existsb (fun b => negb (is_blank (code b))) s.

(** * Properties *)

Section Properties.

Variable D : design.

(** ** Arithmetic of the character tests *)

Lemma digit_test c : (c >=? 48) && (c <? 58) = is_digit c.
Proof.
  unfold is_digit. rewrite Z.geb_leb.
  destruct (Z.leb_spec 48 c), (Z.ltb_spec c 58), (Z.leb_spec c 57);
    simpl; try reflexivity; lia.
Qed.

Lemma letter_test c : (c >=? 97) && (c <? 123) = is_letter c.
Proof.
  unfold is_letter. rewrite Z.geb_leb.
  destruct (Z.leb_spec 97 c), (Z.ltb_spec c 123), (Z.leb_spec c 122);
    simpl; try reflexivity; lia.
Qed.

Lemma is_digit_range c : is_digit c = true <-> 48 <= c <= 57.
Proof. unfold is_digit. rewrite andb_true_iff, !Z.leb_le. tauto. Qed.

Lemma is_letter_range c : is_letter c = true <-> 97 <= c <= 122.
Proof. unfold is_letter. rewrite andb_true_iff, !Z.leb_le. tauto. Qed.

Lemma is_blank_range c : is_blank c = true <-> c <= 32.
Proof. unfold is_blank. apply Z.leb_le. Qed.

Lemma to_unsigned_small z : 0 <= z < 2 ^ 32 -> to_unsigned z = z.
Proof. intros H. unfold to_unsigned. apply Z.mod_small. exact H. Qed.

Lemma digit_value c : is_digit c = true -> to_unsigned (c - 48) = c - 48.
Proof.
  intros H. apply is_digit_range in H. apply to_unsigned_small.
  change (2 ^ 32) with 4294967296. lia.
Qed.

Lemma letter_value c : is_letter c = true -> to_unsigned (c - 97) = c - 97.
Proof.
  intros H. apply is_letter_range in H. apply to_unsigned_small.
  change (2 ^ 32) with 4294967296. lia.
Qed.

Lemma digit_not_letter c : is_digit c = true -> is_letter c = false.
Proof.
  intros H. apply is_digit_range in H.
  destruct (is_letter c) eqn:E; [apply is_letter_range in E; lia | reflexivity].
Qed.

Lemma code_range b : 0 <= code b <= 255.
Proof. destruct b; vm_compute; split; discriminate. Qed.

Lemma stop_cases c :
  is_stop c = true ->
  is_digit c = false /\ is_letter c = false /\ is_blank c = false.
Proof.
  unfold is_stop. rewrite !andb_true_iff, !negb_true_iff. tauto.
Qed.

(** ** The decoder, one character at a time *)

Lemma getc_unfold fuel val (x : world D) b s :
  stdin x = b :: s ->
  viterbi_getc_value D (S fuel) val x =
    if is_digit (code b) then
      Ok 0 (wrote D val (code b - 48) (read D (code b) s x))
    else if is_letter (code b) then
      Ok 0 (wrote D val (code b - 97) (read D (code b) s x))
    else if is_blank (code b) then
      viterbi_getc_value D fuel val (read D (code b) s x)
    else Ok (-1) (read D (code b) s x).
Proof.
  intros H. cbn [viterbi_getc_value]. unfold bind at 1. unfold getchar.
  rewrite H. cbv zeta. rewrite digit_test, letter_test.
  destruct (is_digit (code b)) eqn:Ed.
  - unfold bind, set, act, ret, wrote, read.
    rewrite (digit_value _ Ed). reflexivity.
  - destruct (is_letter (code b)) eqn:El.
    + unfold bind, set, act, ret, wrote, read.
      rewrite (letter_value _ El). reflexivity.
    + unfold is_blank. destruct (code b <=? 32); reflexivity.
Qed.

Lemma getc_unfold_eof fuel val (x : world D) :
  stdin x = [] ->
  viterbi_getc_value D (S fuel) val x =
    viterbi_getc_value D fuel val (emit D (EvGetchar EOF) x).
Proof.
  intros H. cbn [viterbi_getc_value]. unfold bind at 1. unfold getchar.
  rewrite H. reflexivity.
Qed.

Lemma getc_eof_hangs fuel : forall val (x : world D),
  stdin x = [] -> returned (viterbi_getc_value D fuel val x) = None.
Proof.
  induction fuel as [|fuel IH]; intros val x H.
  - reflexivity.
  - rewrite (getc_unfold_eof _ _ _ H). apply IH. exact H.
Qed.

Lemma getc_eof_log fuel : forall val (x : world D),
  stdin x = [] ->
  exists x', viterbi_getc_value D fuel val x = Timeout x'
             /\ written (log x') = written (log x)
             /\ stdin x' = [].
Proof.
  induction fuel as [|fuel IH]; intros val x H.
  - exists x. repeat split; assumption.
  - rewrite (getc_unfold_eof _ _ _ H).
    destruct (IH val (emit D (EvGetchar EOF) x) H) as (x' & E & W & S').
    exists x'. repeat split; try assumption.
    rewrite W. cbn [emit log]. clear.
    induction (log x) as [|e l IHl]; [reflexivity|].
    destruct e; cbn [written app]; rewrite ?IHl; reflexivity.
Qed.

Lemma blank_not_symbol c :
  is_blank c = true -> is_digit c = false /\ is_letter c = false.
Proof.
  intros H. apply is_blank_range in H. split.
  - destruct (is_digit c) eqn:E; [apply is_digit_range in E; lia | reflexivity].
  - destruct (is_letter c) eqn:E; [apply is_letter_range in E; lia | reflexivity].
Qed.

Lemma consumed_nil (x : world D) : consumed D [] (stdin x) x = x.
Proof. destruct x. unfold consumed. cbn. rewrite app_nil_r. reflexivity. Qed.

Lemma read_consumed ws b s r (x : world D) :
  read D (code b) s (consumed D ws r x) = consumed D (ws ++ [b]) s x.
Proof.
  unfold read, consumed, emit, with_stdin. cbn.
  rewrite map_app, app_assoc. reflexivity.
Qed.

Lemma consumed_cons b ws s r (x : world D) :
  consumed D ws s (read D (code b) r x) = consumed D (b :: ws) s x.
Proof.
  unfold read, consumed, emit, with_stdin. cbn.
  rewrite <- app_assoc. reflexivity.
Qed.

(** Blank bytes are read and dropped, one unit of fuel each. *)
Lemma getc_blanks ws : forall fuel val s (x : world D),
  Forall (fun b => is_blank (code b) = true) ws ->
  stdin x = ws ++ s ->
  viterbi_getc_value D (List.length ws + fuel) val x =
  viterbi_getc_value D fuel val (consumed D ws s x).
Proof.
  induction ws as [|b ws IH]; intros fuel val s x Hb Hs.
  - cbn [List.length Nat.add]. cbn [app] in Hs. rewrite <- Hs.
    rewrite consumed_nil. reflexivity.
  - inversion Hb as [|b' ws' Hb1 Hb2]; subst.
    cbn [List.length Nat.add]. cbn [app] in Hs.
    rewrite (getc_unfold _ _ _ _ _ Hs).
    destruct (blank_not_symbol _ Hb1) as [-> ->]. rewrite Hb1.
    rewrite (IH fuel val s); [| assumption | reflexivity].
    rewrite consumed_cons. reflexivity.
Qed.

(** A successful call has read blanks and one meaningful character. *)
Lemma getc_success fuel : forall val (x x' : world D),
  viterbi_getc_value D fuel val x = Ok 0 x' ->
  exists ws b s,
    stdin x = ws ++ b :: s
    /\ Forall (fun b => is_blank (code b) = true) ws
    /\ is_digit (code b) || is_letter (code b) = true
    /\ x' = wrote D val (symbol_value (code b)) (consumed D (ws ++ [b]) s x).
Proof.
  induction fuel as [|fuel IH]; intros val x x' H.
  - discriminate H.
  - destruct (stdin x) as [|b s] eqn:Hs.
    + pose proof (getc_eof_hangs (S fuel) val x Hs) as E.
      rewrite H in E. discriminate E.
    + rewrite (getc_unfold _ _ _ _ _ Hs) in H.
      destruct (is_digit (code b)) eqn:Ed.
      { exists [], b, s. repeat split; auto.
        - rewrite Ed. reflexivity.
        - injection H as <-. unfold symbol_value. rewrite Ed.
          rewrite <- (read_consumed [] b s (stdin x)), consumed_nil.
          reflexivity. }
      destruct (is_letter (code b)) eqn:El.
      { exists [], b, s. repeat split; auto.
        - rewrite El. apply orb_true_r.
        - injection H as <-. unfold symbol_value. rewrite Ed.
          rewrite <- (read_consumed [] b s (stdin x)), consumed_nil.
          reflexivity. }
      destruct (is_blank (code b)) eqn:Eb; [|discriminate H].
      apply IH in H. destruct H as (ws & b' & s' & H1 & H2 & H3 & H4).
      cbn in H1. subst s.
      exists (b :: ws), b', s'. repeat split; auto.
      rewrite H4. f_equal.
      rewrite <- (consumed_cons b (ws ++ [b']) s' (ws ++ b' :: s')).
      reflexivity.
Qed.

(** ** The clock sequencer and the output gate *)

Lemma string_app_nil_r (s : string) : (s ++ EmptyString)%string = s.
Proof. induction s as [|a r IH]; cbn; [reflexivity | rewrite IH; reflexivity]. Qed.

Lemma string_app_assoc (a b c : string) :
  ((a ++ b) ++ c)%string = (a ++ (b ++ c))%string.
Proof. induction a as [|h r IH]; cbn; [reflexivity | rewrite IH; reflexivity]. Qed.

Lemma clock_and_output_eq sync_clk (x : world D) :
  viterbi_clock_and_output D sync_clk x = Ok 0 (half_tick D sync_clk x).
Proof.
  destruct x as [t v si so fi lg].
  unfold viterbi_clock_and_output, bind, set_p_clk, top_step,
    set_p_sync__tb__clk, get_outputs, cout_endl, act, ret.
  unfold half_tick, half_tick_events, gate_events, gate_line, clocked.
  cbn [emit upd_top print top w stdin stdout files log
       with_tb_clk p_data p_data__valid].
  destruct (p_data__valid _ =? 1);
    cbv beta iota delta [emit upd_top print top w stdin stdout files log];
    rewrite <- !app_assoc, ?string_app_nil_r; reflexivity.
Qed.

(** C5, as the code has it: a half-tick sets the external clock to the level
    it is given, advances the design, lowers the testbench-domain clock,
    advances the design and raises the testbench-domain clock; no advance
    follows the raise: the two outputs are read next, from the design as the
    second advance left it. *)
Theorem half_tick_sequence :
  forall sync_clk (x : world D),
    let r := viterbi_clock_and_output D sync_clk x in
    let t :=
      with_tb_clk D 1
        (step D (with_tb_clk D 0 (step D (with_clk D sync_clk (top x))))) in
    returned r = Some 0
    /\ top (final r) = t
    /\ log (final r) =
         log x
         ++ [EvClk sync_clk; EvStep; EvTbClk 0; EvStep; EvTbClk 1;
             EvGet (p_data t) (p_data__valid t)]
         ++ (if p_data__valid t =? 1 then [EvCout (p_data t)] else [])
    /\ p_data t = p_data (step D (with_tb_clk D 0
                                    (step D (with_clk D sync_clk (top x)))))
    /\ count is_step (log (final r)) = count is_step (log x) + 2.
Proof.
  intros sync_clk x r t. subst r. rewrite clock_and_output_eq.
  cbn [returned final].
  split; [reflexivity|]. split; [reflexivity|].
  split; [reflexivity|]. split; [reflexivity|].
  unfold half_tick, half_tick_events, gate_events, clocked, count.
  cbn [log]. rewrite !filter_app, !length_app.
  destruct (p_data__valid _ =? 1); cbn; lia.
Qed.

(** ** The decoder and the ports *)

Lemma port_get_write val v (t : p_top (dstate D)) :
  port_get D val (port_write D val v t) = v.
Proof. destruct val; reflexivity. Qed.

(** C7: on a byte the decoder has read, a digit gives its value (the code
    less 48) and a lower-case letter its value (the code less 97), written
    to the port with status 0; a byte of at most 32 is dropped and the next
    one examined; any other byte ends the call with status -1.  A call that
    succeeds has read blanks and exactly one meaningful character. *)
Theorem viterbi_getc_value_classifies :
  forall fuel val (x : world D) b s,
    let c := code b in
    let x0 := with_stdin D (b :: s) x in
    (is_digit c = true ->
       viterbi_getc_value D (S fuel) val x0
       = Ok 0 (wrote D val (c - 48) (read D c s x)))
    /\ (is_letter c = true ->
       viterbi_getc_value D (S fuel) val x0
       = Ok 0 (wrote D val (c - 97) (read D c s x)))
    /\ (is_blank c = true ->
       viterbi_getc_value D (S fuel) val x0
       = viterbi_getc_value D fuel val (read D c s x))
    /\ (is_stop c = true ->
       viterbi_getc_value D (S fuel) val x0 = Ok (-1) (read D c s x))
    /\ (forall x',
          viterbi_getc_value D fuel val x = Ok 0 x' ->
          exists ws b' s',
            stdin x = ws ++ b' :: s'
            /\ Forall (fun b => is_blank (code b) = true) ws
            /\ is_digit (code b') || is_letter (code b') = true
            /\ stdin x' = s'
            /\ written (log x') = written (log x) ++ [symbol_value (code b')]).
Proof.
  intros fuel val x b s c x0.
  assert (E := getc_unfold fuel val x0 b s eq_refl).
  fold c in E. change (read D c s x0) with (read D c s x) in E.
  repeat split.
  - intros H. rewrite E, H. reflexivity.
  - intros H. rewrite E, H.
    destruct (is_digit c) eqn:Ed; [|reflexivity].
    rewrite (digit_not_letter _ Ed) in H. discriminate H.
  - intros H. rewrite E, H. destruct (blank_not_symbol _ H) as [-> ->].
    reflexivity.
  - intros H. rewrite E. destruct (stop_cases _ H) as (-> & -> & ->).
    reflexivity.
  - intros x' H. apply getc_success in H.
    destruct H as (ws & b' & s' & H1 & H2 & H3 & H4).
    exists ws, b', s'. repeat split; try assumption.
    + rewrite H4. reflexivity.
    + rewrite H4. unfold wrote, consumed. cbn [emit upd_top log].
      generalize (symbol_value (code b')). intros v. clear.
      assert (W : forall l1 l2, written (l1 ++ l2) = written l1 ++ written l2).
      { induction l1 as [|e l1 IH]; intros l2; [reflexivity|].
        destruct e; cbn [app written]; rewrite ?IH; reflexivity. }
      rewrite !W. cbn [written].
      assert (G : forall l : list byte,
                 written (map (fun b => EvGetchar (code b)) l) = []).
      { induction l as [|a l IH]; [reflexivity | exact IH]. }
      rewrite G, app_nil_r. reflexivity.
Qed.

(** C6: a symbol wider than the port it is written to is cut to the width
    of the port by [value_set]: the port holds the value modulo 2 to the
    width, and the call reports success as for any other symbol. *)
Theorem port_overflow_is_masked :
  forall fuel val (x : world D) b s,
    0 <= port_bits D val ->
    is_digit (code b) || is_letter (code b) = true ->
    let r := viterbi_getc_value D (S fuel) val (with_stdin D (b :: s) x) in
    returned r = Some 0
    /\ port_get D val (top (final r))
       = symbol_value (code b) mod 2 ^ port_bits D val
    /\ 0 <= port_get D val (top (final r)) < 2 ^ port_bits D val.
Proof.
  intros fuel val x b s Hw Hm r.
  assert (E : r = Ok 0 (wrote D val (symbol_value (code b))
                          (read D (code b) s x))).
  { subst r.
    rewrite (getc_unfold fuel val (with_stdin D (b :: s) x) b s eq_refl).
    change (read D (code b) s (with_stdin D (b :: s) x))
      with (read D (code b) s x).
    unfold symbol_value.
    destruct (is_digit (code b)) eqn:Ed; [reflexivity|].
    cbn [orb] in Hm. rewrite Hm. reflexivity. }
  rewrite E. cbn [returned final]. unfold wrote. cbn [emit upd_top top].
  rewrite port_get_write. unfold value_set. rewrite (Z.land_ones _ _ Hw).
  repeat split; try reflexivity; apply Z.mod_pos_bound; lia.
Qed.

(** ** The loop of [main] *)

Lemma main_loop_unfold fuel gfuel cap i input j (x : world D) :
  main_loop D (S fuel) gfuel cap i input j x =
  if i <? 256 then
    match refill D gfuel i input x with
    | Ok a x' =>
        let jx := full_tick D cap (j, x') in
        main_loop D fuel gfuel cap (snd a + 1) (fst a) (fst jx) (snd jx)
    | Timeout x' => Timeout x'
    end
  else Ok (input, j) x.
Proof.
  cbn [main_loop]. destruct (i <? 256); [|reflexivity].
  unfold bind at 1. unfold refill.
  match goal with
  | |- match ?m with _ => _ end = _ => destruct m as [[input' i'] x'|x']
  end; [|reflexivity].
  cbn [fst snd]. unfold full_tick, sample_if. cbn [fst snd].
  unfold bind. destruct (cap =? 1).
  - unfold w_sample at 1. unfold act, ret. fold (sampled D j x').
    rewrite clock_and_output_eq.
    unfold w_sample at 1. unfold act.
    fold (sampled D (j + 1) (half_tick D 0 (sampled D j x'))).
    rewrite clock_and_output_eq. reflexivity.
  - unfold ret. rewrite !clock_and_output_eq. reflexivity.
Qed.

Lemma count_app f l1 l2 : count f (l1 ++ l2) = count f l1 + count f l2.
Proof. unfold count. rewrite filter_app, length_app. lia. Qed.

Lemma count_nonneg f l : 0 <= count f l.
Proof. unfold count. lia. Qed.

Lemma count_decoder_events f l :
  (forall e, decoder_event e = true -> f e = false) ->
  forallb decoder_event l = true -> count f l = 0.
Proof.
  intros Hf. induction l as [|e l IH]; intros H; [reflexivity|].
  cbn [forallb] in H. apply andb_true_iff in H. destruct H as [He Hl].
  unfold count in *. cbn [filter]. rewrite (Hf e He). apply IH, Hl.
Qed.

Lemma gate_output_app l1 l2 :
  gate_output (l1 ++ l2) = (gate_output l1 ++ gate_output l2)%string.
Proof.
  induction l1 as [|e l1 IH]; [reflexivity|].
  destruct e; cbn [app gate_output]; rewrite ?IH; try reflexivity.
  rewrite string_app_assoc. reflexivity.
Qed.

Lemma gate_output_decoder_events l :
  forallb decoder_event l = true -> gate_output l = EmptyString.
Proof.
  induction l as [|e l IH]; intros H; [reflexivity|].
  cbn [forallb] in H. apply andb_true_iff in H. destruct H as [He Hl].
  destruct e; try discriminate He; cbn [gate_output]; apply IH, Hl.
Qed.

Lemma decoder_frame_refl (x : world D) : decoder_frame D x x.
Proof.
  repeat split. exists []. rewrite app_nil_r. split; reflexivity.
Qed.

Lemma decoder_frame_trans (x y z : world D) :
  decoder_frame D x y -> decoder_frame D y z -> decoder_frame D x z.
Proof.
  intros (A1 & A2 & A3 & l1 & A4 & A5) (B1 & B2 & B3 & l2 & B4 & B5).
  repeat split; try congruence.
  exists (l1 ++ l2). rewrite B4, A4, <- app_assoc. split; [reflexivity|].
  rewrite forallb_app, A5, B5. reflexivity.
Qed.

Lemma decoder_frame_read c s (x : world D) : decoder_frame D x (read D c s x).
Proof. repeat split. exists [EvGetchar c]. split; reflexivity. Qed.

Lemma decoder_frame_eof (x : world D) :
  decoder_frame D x (emit D (EvGetchar EOF) x).
Proof. repeat split. exists [EvGetchar EOF]. split; reflexivity. Qed.

Lemma decoder_frame_wrote val v (x : world D) :
  decoder_frame D x (wrote D val v x).
Proof. repeat split. exists [EvSet val v]. split; reflexivity. Qed.

(** Whatever a call of the decoder does, returning or not, it only reads and
    writes ports. *)
Lemma getc_frame fuel : forall val (x : world D),
  decoder_frame D x (final (viterbi_getc_value D fuel val x)).
Proof.
  induction fuel as [|fuel IH]; intros val x.
  - apply decoder_frame_refl.
  - destruct (stdin x) as [|b s] eqn:Hs.
    + rewrite (getc_unfold_eof _ _ _ Hs).
      eapply decoder_frame_trans; [apply decoder_frame_eof | apply IH].
    + rewrite (getc_unfold _ _ _ _ _ Hs).
      destruct (is_digit (code b)); [|destruct (is_letter (code b));
        [|destruct (is_blank (code b))]]; cbn [final].
      * eapply decoder_frame_trans;
          [apply decoder_frame_read | apply decoder_frame_wrote].
      * eapply decoder_frame_trans;
          [apply decoder_frame_read | apply decoder_frame_wrote].
      * eapply decoder_frame_trans; [apply decoder_frame_read | apply IH].
      * apply decoder_frame_read.
Qed.

Lemma refill_frame gfuel i input (x : world D) :
  decoder_frame D x (final (refill D gfuel i input x)).
Proof.
  unfold refill. destruct (input =? 0); [|apply decoder_frame_refl].
  unfold bind. pose proof (getc_frame gfuel X0 x) as F0.
  destruct (viterbi_getc_value D gfuel X0 x) as [a x1|x1]; cbn [final] in *;
    [|exact F0].
  destruct (a =? 0); [|exact F0].
  pose proof (getc_frame gfuel X1 x1) as F1.
  destruct (viterbi_getc_value D gfuel X1 x1) as [a2 x2|x2];
    cbn [final ret] in *; eapply decoder_frame_trans; eassumption.
Qed.

(** What the refill gives back. *)
Lemma refill_result gfuel i input (x x' : world D) a :
  refill D gfuel i input x = Ok a x' ->
  (input <> 0 /\ a = (input, i) /\ x' = x)
  \/ (input = 0 /\ fst a <> 0 /\ snd a = i
      /\ viterbi_getc_value D gfuel X0 x = Ok (fst a) x')
  \/ (input = 0 /\ snd a = 0
      /\ exists x1, viterbi_getc_value D gfuel X0 x = Ok 0 x1
                    /\ viterbi_getc_value D gfuel X1 x1 = Ok (fst a) x').
Proof.
  unfold refill. destruct (Z.eqb_spec input 0) as [E|E].
  - unfold bind.
    destruct (viterbi_getc_value D gfuel X0 x) as [a0 x1|x1]; [|discriminate].
    destruct (Z.eqb_spec a0 0) as [E0|E0].
    + subst a0.
      destruct (viterbi_getc_value D gfuel X1 x1) as [a1 x2|x2] eqn:G1;
        [|discriminate].
      unfold ret. intros H. injection H as <- <-. right. right.
      repeat split; try assumption. exists x1. split; [reflexivity | exact G1].
    + unfold ret. intros H. injection H as <- <-. right. left.
      repeat split; assumption.
  - unfold ret. intros H. injection H as <- <-. left. repeat split; assumption.
Qed.

(** ** Full ticks *)

Lemma step_inputs (t : p_top (dstate D)) :
  p_x0 (step D t) = p_x0 t /\ p_x1 (step D t) = p_x1 t
  /\ p_clk (step D t) = p_clk t
  /\ p_sync__tb__clk (step D t) = p_sync__tb__clk t.
Proof. unfold step. destruct (eval D t) as [[s d] v]. repeat split. Qed.

Lemma clocked_inputs l (t : p_top (dstate D)) :
  p_x0 (clocked D l t) = p_x0 t /\ p_x1 (clocked D l t) = p_x1 t.
Proof.
  unfold clocked. cbn [with_tb_clk p_x0 p_x1].
  destruct (step_inputs (with_tb_clk D 0 (step D (with_clk D l t))))
    as (-> & -> & _).
  cbn [with_tb_clk p_x0 p_x1].
  destruct (step_inputs (with_clk D l t)) as (-> & -> & _).
  split; reflexivity.
Qed.

Lemma tick_top_inputs (t : p_top (dstate D)) :
  p_x0 (tick_top D t) = p_x0 t /\ p_x1 (tick_top D t) = p_x1 t.
Proof.
  unfold tick_top.
  destruct (clocked_inputs 1 (clocked D 0 t)) as [-> ->].
  apply clocked_inputs.
Qed.

Lemma gate_output_half_tick l (t : p_top (dstate D)) :
  gate_output (half_tick_events D l t)
  = gate_line (p_data (clocked D l t)) (p_data__valid (clocked D l t)).
Proof.
  unfold half_tick_events, gate_events. cbn [app gate_output].
  destruct (p_data__valid (clocked D l t) =? 1); cbn [gate_output];
    apply string_app_nil_r.
Qed.

Lemma count_half_tick_events l (t : p_top (dstate D)) :
  count is_step (half_tick_events D l t) = 2
  /\ count is_clk (half_tick_events D l t) = 1
  /\ count is_clk_high (half_tick_events D l t) = (if l =? 1 then 1 else 0)
  /\ count is_get (half_tick_events D l t) = 1
  /\ count is_sample (half_tick_events D l t) = 0
  /\ count is_getchar (half_tick_events D l t) = 0
  /\ count is_set (half_tick_events D l t) = 0.
Proof.
  unfold half_tick_events, gate_events, count.
  destruct (p_data__valid (clocked D l t) =? 1); cbn;
    destruct (l =? 1); cbn; repeat split.
Qed.

Lemma count_tick_events cap j (t : p_top (dstate D)) :
  count is_step (tick_events D cap j t) = 4
  /\ count is_clk (tick_events D cap j t) = 2
  /\ count is_clk_high (tick_events D cap j t) = 1
  /\ count is_get (tick_events D cap j t) = 2
  /\ count is_sample (tick_events D cap j t) = (if cap =? 1 then 2 else 0)
  /\ count is_getchar (tick_events D cap j t) = 0
  /\ count is_set (tick_events D cap j t) = 0.
Proof.
  unfold tick_events. rewrite !count_app.
  destruct (count_half_tick_events 0 t) as (-> & -> & -> & -> & -> & -> & ->).
  destruct (count_half_tick_events 1 (clocked D 0 t))
    as (-> & -> & -> & -> & -> & -> & ->).
  destruct (cap =? 1); cbn; repeat split.
Qed.

(** A full tick leaves the input alone, clocks the design twice and extends
    the log and the output. *)
Lemma full_tick_facts cap j (x : world D) :
  let r := full_tick D cap (j, x) in
  fst r = j + (if cap =? 1 then 2 else 0)
  /\ stdin (snd r) = stdin x
  /\ files (snd r) = files x
  /\ top (snd r) = tick_top D (top x)
  /\ log (snd r) = log x ++ tick_events D cap j (top x)
  /\ stdout (snd r)
     = (stdout x ++ gate_output (tick_events D cap j (top x)))%string.
Proof.
  destruct x as [t v si so fi lg].
  unfold full_tick, sample_if, tick_events, tick_top.
  destruct (cap =? 1); cbn [fst snd];
    unfold half_tick, sampled, emit, with_w;
    cbn [top w stdin stdout files log];
    rewrite ?gate_output_app, !gate_output_half_tick, <- ?app_assoc,
      ?string_app_assoc;
    cbn [app gate_output String.append];
    repeat split; lia.
Qed.

Lemma ticks_S n cap jx :
  ticks D (S n) cap jx = ticks D n cap (full_tick D cap jx).
Proof. unfold ticks. apply Nat.iter_succ_r. Qed.

(** [n] full ticks: the counts, the input and the stimulus ports. *)
Lemma ticks_facts n : forall cap j (x : world D),
  let r := ticks D n cap (j, x) in
  fst r = j + (if cap =? 1 then 2 else 0) * Z.of_nat n
  /\ stdin (snd r) = stdin x
  /\ top (snd r) = Nat.iter n (tick_top D) (top x)
  /\ p_x0 (top (snd r)) = p_x0 (top x)
  /\ p_x1 (top (snd r)) = p_x1 (top x)
  /\ exists l,
       log (snd r) = log x ++ l
       /\ count is_step l = 4 * Z.of_nat n
       /\ count is_clk l = 2 * Z.of_nat n
       /\ count is_clk_high l = Z.of_nat n
       /\ count is_get l = 2 * Z.of_nat n
       /\ count is_sample l = (if cap =? 1 then 2 else 0) * Z.of_nat n
       /\ count is_getchar l = 0
       /\ count is_set l = 0.
Proof.
  induction n as [|n IH]; intros cap j x.
  - unfold ticks, Nat.iter. cbn [nat_rect fst snd].
    split; [destruct (cap =? 1); lia|]. do 4 (split; [reflexivity|]).
    exists []. rewrite app_nil_r. destruct (cap =? 1); repeat split.
  - cbv zeta. rewrite ticks_S.
    destruct (full_tick_facts cap j x) as (F1 & F2 & _ & F4 & F5 & _).
    destruct (full_tick D cap (j, x)) as [j1 x1]. cbn [fst snd] in *.
    destruct (IH cap j1 x1) as (I1 & I2 & I3 & I4 & I5 & l & L0 & L).
    destruct (tick_top_inputs (top x)) as [T0 T1].
    split; [rewrite I1, F1; destruct (cap =? 1); lia|].
    split; [congruence|].
    split; [rewrite I3, F4; symmetry; apply Nat.iter_succ_r|].
    split; [rewrite I4, F4; exact T0|].
    split; [rewrite I5, F4; exact T1|].
    exists (tick_events D cap j (top x) ++ l).
    rewrite L0, F5, <- app_assoc. split; [reflexivity|].
    rewrite !count_app.
    destruct (count_tick_events cap j (top x))
      as (-> & -> & -> & -> & -> & -> & ->).
    destruct L as (-> & -> & -> & -> & -> & -> & ->).
    destruct (cap =? 1); repeat split; lia.
Qed.

(** ** The loop once the decoder has reported the stop status *)

Lemma refill_skip gfuel i input (x : world D) :
  input <> 0 -> refill D gfuel i input x = Ok (input, i) x.
Proof.
  intros H. unfold refill. destruct (Z.eqb_spec input 0); [contradiction|].
  reflexivity.
Qed.

(** With [input] other than 0, the loop makes one full tick for each value
    of [i] up to 255 and calls nothing else. *)
Lemma main_loop_flush n : forall fuel gfuel cap i input j (x : world D),
  input <> 0 -> i = 256 - Z.of_nat n -> (n < fuel)%nat ->
  main_loop D fuel gfuel cap i input j x
  = Ok (input, fst (ticks D n cap (j, x))) (snd (ticks D n cap (j, x))).
Proof.
  induction n as [|n IH]; intros fuel gfuel cap i input j x Hin Hi Hf;
    (destruct fuel as [|fuel]; [lia|]); rewrite main_loop_unfold.
  - destruct (Z.ltb_spec i 256); [lia|]. reflexivity.
  - destruct (Z.ltb_spec i 256); [|lia].
    rewrite (refill_skip _ _ _ _ Hin). cbn [fst snd]. cbv zeta.
    rewrite ticks_S. destruct (full_tick D cap (j, x)) as [j1 x1].
    cbn [fst snd]. apply IH; [assumption | lia | lia].
Qed.

(** The iteration in which the refill reports a status other than 0, and the
    ones after it. *)
Lemma main_loop_stop fuel gfuel cap i input j a i' (x x' : world D) :
  i < 256 -> 0 <= i' < 256 ->
  refill D gfuel i input x = Ok (a, i') x' -> a <> 0 ->
  (Z.to_nat (256 - i') < fuel)%nat ->
  main_loop D fuel gfuel cap i input j x
  = Ok (a, fst (ticks D (Z.to_nat (256 - i')) cap (j, x')))
       (snd (ticks D (Z.to_nat (256 - i')) cap (j, x'))).
Proof.
  intros Hi Hi' Hr Ha Hf. destruct fuel as [|fuel]; [lia|].
  rewrite main_loop_unfold. destruct (Z.ltb_spec i 256); [|lia].
  rewrite Hr. cbn [fst snd]. cbv zeta.
  replace (Z.to_nat (256 - i')) with (S (Z.to_nat (256 - (i' + 1)))) by lia.
  rewrite ticks_S. destruct (full_tick D cap (j, x')) as [j1 x1].
  cbn [fst snd]. apply main_loop_flush; [assumption | lia | lia].
Qed.

(** ** Calls of the decoder that report the stop status *)

Lemma getc_failure fuel : forall val a (x x' : world D),
  viterbi_getc_value D fuel val x = Ok a x' -> a <> 0 ->
  a = -1 /\ top x' = top x
  /\ exists ws b s,
       stdin x = ws ++ b :: s
       /\ Forall (fun b => is_blank (code b) = true) ws
       /\ is_stop (code b) = true
       /\ x' = consumed D (ws ++ [b]) s x.
Proof.
  induction fuel as [|fuel IH]; intros val a x x' H Ha.
  - discriminate H.
  - destruct (stdin x) as [|b s] eqn:Hs.
    + pose proof (getc_eof_hangs (S fuel) val x Hs) as E.
      rewrite H in E. discriminate E.
    + rewrite (getc_unfold _ _ _ _ _ Hs) in H.
      destruct (is_digit (code b)) eqn:Ed;
        [injection H as <- _; contradiction|].
      destruct (is_letter (code b)) eqn:El;
        [injection H as <- _; contradiction|].
      destruct (is_blank (code b)) eqn:Eb.
      * destruct (IH _ _ _ _ H Ha) as (A1 & A2 & ws & b' & s' & B1 & B2 & B3 & B4).
        split; [exact A1|]. split; [rewrite A2; reflexivity|].
        cbn in B1. subst s.
        exists (b :: ws), b', s'. repeat split; auto.
        rewrite B4.
        rewrite <- (consumed_cons b (ws ++ [b']) s' (ws ++ b' :: s')).
        reflexivity.
      * injection H as <- <-. split; [reflexivity|]. split; [reflexivity|].
        exists [], b, s. repeat split; auto.
        unfold is_stop. rewrite Ed, El, Eb. reflexivity.
Qed.

Lemma getc_symbol fuel val (x : world D) b s :
  stdin x = b :: s ->
  is_digit (code b) || is_letter (code b) = true ->
  viterbi_getc_value D (S fuel) val x
  = Ok 0 (wrote D val (symbol_value (code b)) (read D (code b) s x)).
Proof.
  intros Hs Hm. rewrite (getc_unfold _ _ _ _ _ Hs). unfold symbol_value.
  destruct (is_digit (code b)); [reflexivity|].
  cbn [orb] in Hm. rewrite Hm. reflexivity.
Qed.

Lemma getc_stop fuel val (x : world D) b s :
  stdin x = b :: s -> is_stop (code b) = true ->
  viterbi_getc_value D (S fuel) val x = Ok (-1) (read D (code b) s x).
Proof.
  intros Hs Hm. rewrite (getc_unfold _ _ _ _ _ Hs).
  destruct (stop_cases _ Hm) as (-> & -> & ->). reflexivity.
Qed.

(** ** Inputs without a stop byte *)

Lemma getc_no_stop fuel : forall val a (x x' : world D),
  Forall (fun b => is_stop (code b) = false) (stdin x) ->
  viterbi_getc_value D fuel val x = Ok a x' ->
  a = 0 /\ Forall (fun b => is_stop (code b) = false) (stdin x').
Proof.
  intros val a x x' Hn H.
  destruct (Z.eq_dec a 0) as [E|E].
  - subst a. split; [reflexivity|].
    apply getc_success in H. destruct H as (ws & b & s & H1 & _ & _ & H4).
    rewrite H4. cbn. rewrite H1 in Hn. apply Forall_app in Hn.
    destruct Hn as [_ Hn]. inversion Hn; assumption.
  - exfalso. destruct (getc_failure _ _ _ _ _ H E)
      as (_ & _ & ws & b & s & H1 & _ & H3 & _).
    rewrite H1 in Hn. apply Forall_app in Hn. destruct Hn as [_ Hn].
    inversion Hn as [|? ? Hb ?]. rewrite H3 in Hb. discriminate Hb.
Qed.

(** Without a stop byte in the input the loop does not end: the decoder
    is called again after every pair, and at the end of the input it does
    not return. *)
Lemma main_loop_no_exit fuel : forall gfuel cap i j (x : world D),
  i < 256 ->
  Forall (fun b => is_stop (code b) = false) (stdin x) ->
  returned (main_loop D fuel gfuel cap i 0 j x) = None.
Proof.
  induction fuel as [|fuel IH]; intros gfuel cap i j x Hi Hn; [reflexivity|].
  rewrite main_loop_unfold. destruct (Z.ltb_spec i 256); [|lia].
  destruct (refill D gfuel i 0 x) as [a x'|x'] eqn:Hr; [|reflexivity].
  apply refill_result in Hr.
  destruct Hr as [(H0 & _)|[(_ & H1 & _ & H2)|(_ & H1 & x1 & H2 & H3)]].
  - contradiction H0. reflexivity.
  - apply (getc_no_stop _ _ _ _ _ Hn) in H2. destruct H2 as [H2 _].
    contradiction.
  - apply (getc_no_stop _ _ _ _ _ Hn) in H2. destruct H2 as [_ Hn1].
    apply (getc_no_stop _ _ _ _ _ Hn1) in H3. destruct H3 as [H3 Hn2].
    cbv zeta. rewrite H1, H3.
    destruct (full_tick_facts cap j x') as (_ & F2 & _).
    destruct (full_tick D cap (j, x')) as [j1 x1']. cbn [fst snd] in *.
    apply IH; [lia | rewrite F2; exact Hn2].
Qed.

(** ** [main] *)

Lemma main_eq fuel argc argv (x : world D) :
  main D fuel argc argv x =
  let cap := if argc >? 1 then 1 else 0 in
  let x0 := if argc >? 1
            then with_w D (mk_vcd D true (buffer (w x))) x else x in
  match main_loop D fuel fuel cap 0 0 0 x0 with
  | Ok _ x' =>
      Ok 0 (if argc >? 1
            then write_file D (nth 1 argv EmptyString)
                   (print D ("Writing " ++ nth 1 argv EmptyString
                             ++ newline)%string x')
            else x')
  | Timeout x' => Timeout x'
  end.
Proof.
  unfold main, bind. destruct (argc >? 1); unfold w_add, act, ret; cbv zeta;
    match goal with
    | |- context [main_loop D fuel fuel ?c 0 0 0 ?y] =>
        destruct (main_loop D fuel fuel c 0 0 0 y)
    end; reflexivity.
Qed.

(** A property of the world that calls of the decoder and full ticks keep
    holds when the loop ends or runs out of fuel. *)
Lemma main_loop_invariant (P : world D -> Prop) cap :
  (forall x x', decoder_frame D x x' -> P x -> P x') ->
  (forall j x, P x -> P (snd (full_tick D cap (j, x)))) ->
  forall fuel gfuel i input j x,
    P x -> P (final (main_loop D fuel gfuel cap i input j x)).
Proof.
  intros Hd Ht. induction fuel as [|fuel IH]; intros gfuel i input j x Hx.
  - exact Hx.
  - rewrite main_loop_unfold. destruct (i <? 256); [|exact Hx].
    pose proof (refill_frame gfuel i input x) as F.
    destruct (refill D gfuel i input x) as [a x'|x']; cbn [final] in F.
    + cbv zeta. apply IH. apply Ht. apply (Hd x); assumption.
    + cbn [final]. apply (Hd x); assumption.
Qed.

Lemma main_log fuel argc argv (x : world D) :
  log (final (main D fuel argc argv x))
  = log (final (main_loop D fuel fuel (if argc >? 1 then 1 else 0) 0 0 0
                  (if argc >? 1
                   then with_w D (mk_vcd D true (buffer (w x))) x else x))).
Proof.
  rewrite main_eq. cbv zeta.
  destruct (main_loop D fuel fuel _ 0 0 0 _); destruct (argc >? 1);
    reflexivity.
Qed.

Lemma main_no_exit fuel argc argv input :
  Forall (fun b => is_stop (code b) = false) input ->
  returned (main D fuel argc argv (init_world D input)) = None.
Proof.
  intros Hn. rewrite main_eq. cbv zeta.
  match goal with
  | |- context [main_loop D fuel fuel ?c 0 0 0 ?y] =>
      pose proof (main_loop_no_exit fuel fuel c 0 0 y) as E;
      destruct (main_loop D fuel fuel c 0 0 0 y)
  end; [|reflexivity].
  assert (E' : @returned D (Z * Z) (Ok a x) = None).
  { apply E; [lia|]. destruct (argc >? 1); exact Hn. }
  discriminate E'.
Qed.

(** C1, on the code: at the end of the input [getchar()] gives -1, which the
    decoder takes for a blank (it is at most 32) and reads again, for ever:
    the call never returns, with whatever fuel, and so [main] on the empty
    input never returns either. *)
Theorem end_of_input_is_read_as_blank :
  forall fuel val (x : world D) argc argv,
    returned (viterbi_getc_value D fuel val (with_stdin D [] x)) = None
    /\ returned (main D fuel argc argv (init_world D [])) = None.
Proof.
  intros fuel val x argc argv. split.
  - apply getc_eof_hangs. reflexivity.
  - apply main_no_exit. constructor.
Qed.

(** C3, as the code has it: in every run, finished or not, the log has two
    half-ticks for each full tick and, with capture enabled (more than one
    argument), one sample for each half-tick, that is two for each full
    tick; with capture disabled it has no sample. *)
Theorem samples_per_tick :
  forall fuel argc argv input,
    let x := final (main D fuel argc argv (init_world D input)) in
    count is_clk (log x) = 2 * count is_clk_high (log x)
    /\ count is_step (log x) = 4 * count is_clk_high (log x)
    /\ count is_sample (log x)
       = (if argc >? 1 then 2 * count is_clk_high (log x) else 0).
Proof.
  intros fuel argc argv input x. subst x. rewrite main_log.
  set (cap := if argc >? 1 then 1 else 0).
  set (x0 := if argc >? 1 then _ else _).
  set (k := if cap =? 1 then 2 else 0).
  pose (P := fun y : world D =>
    count is_clk (log y) = 2 * count is_clk_high (log y)
    /\ count is_step (log y) = 4 * count is_clk_high (log y)
    /\ count is_sample (log y) = k * count is_clk_high (log y)).
  assert (H : P (final (main_loop D fuel fuel cap 0 0 0 x0))).
  { apply main_loop_invariant.
    - intros y y' (_ & _ & _ & l & L1 & L2) (A & B & C). unfold P.
      rewrite L1, !count_app.
      rewrite !(count_decoder_events _ l) by
        (try exact L2; intros [] E; try discriminate E; reflexivity).
      lia.
    - intros j y (A & B & C). unfold P.
      destruct (full_tick_facts cap j y) as (_ & _ & _ & _ & L1 & _).
      rewrite L1, !count_app.
      destruct (count_tick_events cap j (top y))
        as (-> & -> & -> & _ & -> & _ & _).
      fold k. lia.
    - unfold P, x0. destruct (argc >? 1); cbn; lia. }
  destruct H as (A & B & C). split; [exact A|]. split; [exact B|].
  rewrite C. unfold k, cap. destruct (argc >? 1); reflexivity.
Qed.

(** C10: when the loop is entered with [input] other than 0 (the decoder has
    reported the stop status before), it ends after one full tick for each
    remaining value of [i] up to 255: nothing is read and no port is
    written, so the input and the X0 and X1 ports are as they were; each
    tick clocks the design twice, reads the outputs twice and, with capture
    enabled, takes two samples.  The same holds from the iteration in which
    the fill of X0 reports the stop status: the decoder is not called for
    X1, and that iteration and the remaining ones make their full ticks. *)
Theorem ticks_after_stop :
  forall fuel gfuel cap i input j (x : world D),
    0 <= i <= 256 -> (Z.to_nat (256 - i) < fuel)%nat ->
    let n := 256 - i in
    let k := if cap =? 1 then 2 else 0 in
    (input <> 0 ->
     let r := main_loop D fuel gfuel cap i input j x in
     returned r = Some (input, j + k * n)
     /\ final r = snd (ticks D (Z.to_nat n) cap (j, x))
     /\ stdin (final r) = stdin x
     /\ p_x0 (top (final r)) = p_x0 (top x)
     /\ p_x1 (top (final r)) = p_x1 (top x)
     /\ top (final r) = Nat.iter (Z.to_nat n) (tick_top D) (top x)
     /\ exists l,
          log (final r) = log x ++ l
          /\ count is_getchar l = 0
          /\ count is_set l = 0
          /\ count is_clk_high l = n
          /\ count is_clk l = 2 * n
          /\ count is_step l = 4 * n
          /\ count is_get l = 2 * n
          /\ count is_sample l = k * n)
    /\ (forall a (x' : world D),
          i < 256 ->
          viterbi_getc_value D gfuel X0 x = Ok a x' -> a <> 0 ->
          let r := main_loop D fuel gfuel cap i 0 j x in
          returned r = Some (a, j + k * n)
          /\ final r = snd (ticks D (Z.to_nat n) cap (j, x'))
          /\ stdin (final r) = stdin x'
          /\ top (final r) = Nat.iter (Z.to_nat n) (tick_top D) (top x)
          /\ exists l,
               log (final r) = log x' ++ l
               /\ count is_getchar l = 0
               /\ count is_set l = 0
               /\ count is_clk_high l = n
               /\ count is_step l = 4 * n
               /\ count is_sample l = k * n).
Proof.
  intros fuel gfuel cap i input j x Hi Hf n k. split.
  - intros Hin r. subst r.
    rewrite (main_loop_flush (Z.to_nat n))
      by (subst n; first [assumption | lia]).
    cbn [returned final].
    destruct (ticks_facts (Z.to_nat n) cap j x)
      as (F1 & F2 & F3 & F4 & F5 & l & L0 & L1 & L2 & L3 & L4 & L5 & L6 & L7).
    rewrite Z2Nat.id in * by (subst n; lia).
    split; [rewrite F1; reflexivity|].
    do 5 (split; [first [reflexivity | assumption]|]).
    exists l. repeat split; assumption.
  - intros a x' Hlt H0 Ha r.
    assert (Hr : refill D gfuel i 0 x = Ok (a, i) x').
    { unfold refill, bind. cbn [Z.eqb]. rewrite H0.
      destruct (Z.eqb_spec a 0); [contradiction | reflexivity]. }
    subst r.
    rewrite (main_loop_stop fuel gfuel cap i 0 j a i x x')
      by first [assumption | lia].
    cbn [returned final]. fold n.
    destruct (ticks_facts (Z.to_nat n) cap j x')
      as (F1 & F2 & F3 & _ & _ & l & L0 & L1 & _ & L3 & _ & L5 & L6 & L7).
    rewrite Z2Nat.id in * by (subst n; lia).
    destruct (getc_failure _ _ _ _ _ H0 Ha) as (_ & T2 & _).
    split; [rewrite F1; reflexivity|].
    split; [reflexivity|]. split; [exact F2|].
    split; [rewrite F3, T2; reflexivity|].
    exists l. repeat split; assumption.
Qed.

(** ** The sequence of decoded values *)

Lemma written_app l1 l2 : written (l1 ++ l2) = written l1 ++ written l2.
Proof.
  induction l1 as [|e l1 IH]; [reflexivity|].
  destruct e; cbn [app written]; rewrite ?IH; reflexivity.
Qed.

Lemma written_getchars (l : list byte) :
  written (map (fun b => EvGetchar (code b)) l) = [].
Proof. induction l as [|a l IH]; [reflexivity | exact IH]. Qed.

Lemma symbols_blanks ws s :
  Forall (fun b => is_blank (code b) = true) ws ->
  symbols (ws ++ s) = symbols s.
Proof.
  induction 1 as [|b ws Hb _ IH]; [reflexivity|].
  cbn [app symbols]. destruct (blank_not_symbol _ Hb) as [-> ->].
  rewrite Hb. exact IH.
Qed.

Lemma symbols_insert s s' : blanks_inserted s s' -> symbols s' = symbols s.
Proof.
  induction 1 as [|b s s' _ IH|b s s' Hb _ IH].
  - reflexivity.
  - cbn [symbols]. rewrite IH. reflexivity.
  - cbn [symbols]. destruct (blank_not_symbol _ Hb) as [-> ->].
    rewrite Hb. exact IH.
Qed.

(** A call that runs out of fuel, with more fuel than the input has bytes,
    has met blanks only. *)
Lemma getc_timeout fuel : forall val (x x' : world D),
  viterbi_getc_value D fuel val x = Timeout x' ->
  (List.length (stdin x) < fuel)%nat ->
  Forall (fun b => is_blank (code b) = true) (stdin x)
  /\ written (log x') = written (log x).
Proof.
  induction fuel as [|fuel IH]; intros val x x' H Hf; [lia|].
  destruct (stdin x) as [|b s] eqn:Hs.
  - split; [constructor|].
    destruct (getc_eof_log (S fuel) val x Hs) as (y & E & W & _).
    rewrite H in E. injection E as <-. exact W.
  - rewrite (getc_unfold _ _ _ _ _ Hs) in H.
    destruct (is_digit (code b)); [discriminate H|].
    destruct (is_letter (code b)); [discriminate H|].
    destruct (is_blank (code b)) eqn:Eb; [|discriminate H].
    apply IH in H; [|cbn in *; lia]. destruct H as [H1 H2]. split.
    + constructor; assumption.
    + rewrite H2. cbn [read emit log]. rewrite written_app.
      apply app_nil_r.
Qed.

(** What one call adds to the written values, given fuel for the whole
    input. *)
Lemma getc_written fuel val (x : world D) :
  (List.length (stdin x) < fuel)%nat ->
  match viterbi_getc_value D fuel val x with
  | Ok a x' =>
      if a =? 0 then
        exists v, symbols (stdin x) = v :: symbols (stdin x')
                  /\ written (log x') = written (log x) ++ [v]
                  /\ (List.length (stdin x') < fuel)%nat
      else symbols (stdin x) = [] /\ written (log x') = written (log x)
  | Timeout x' => symbols (stdin x) = [] /\ written (log x') = written (log x)
  end.
Proof.
  intros Hf.
  destruct (viterbi_getc_value D fuel val x) as [a x'|x'] eqn:E.
  - destruct (Z.eqb_spec a 0) as [Ea|Ea].
    + subst a. apply getc_success in E.
      destruct E as (ws & b & s & H1 & H2 & H3 & H4).
      exists (symbol_value (code b)). rewrite H4, H1.
      cbn [wrote consumed emit upd_top log stdin].
      rewrite (symbols_blanks _ _ H2). cbn [symbols]. rewrite H3.
      rewrite !written_app, written_getchars, app_nil_r.
      repeat split. rewrite H1, length_app in Hf. cbn in Hf. lia.
    + destruct (getc_failure _ _ _ _ _ E Ea)
        as (_ & _ & ws & b & s & H1 & H2 & H3 & H4).
      rewrite H4, H1. cbn [consumed log].
      rewrite (symbols_blanks _ _ H2). cbn [symbols].
      destruct (stop_cases _ H3) as (-> & -> & ->). cbn [orb].
      rewrite written_app, written_getchars, app_nil_r. split; reflexivity.
  - destruct (getc_timeout _ _ _ _ E Hf) as [H1 H2]. split; [|exact H2].
    rewrite <- (app_nil_r (stdin x)). apply symbols_blanks. exact H1.
Qed.

Lemma decode_calls_written calls : forall fuel val (x : world D),
  (List.length (stdin x) < fuel)%nat ->
  written (log (decode_calls D calls fuel val x))
  = written (log x) ++ firstn calls (symbols (stdin x)).
Proof.
  induction calls as [|n IH]; intros fuel val x Hf.
  - cbn. symmetry. apply app_nil_r.
  - cbn [decode_calls]. pose proof (getc_written fuel val x Hf) as G.
    destruct (viterbi_getc_value D fuel val x) as [a x'|x'].
    + destruct (a =? 0).
      * destruct G as (v & G1 & G2 & G3).
        rewrite (IH _ _ _ G3), G2, G1, <- app_assoc. reflexivity.
      * destruct G as [G1 G2]. rewrite G1, G2. cbn. symmetry.
        apply app_nil_r.
    + destruct G as [G1 G2]. rewrite G1, G2. cbn. symmetry.
      apply app_nil_r.
Qed.

(** C9: blank bytes (at most 32) inserted anywhere in an input do not change
    the values the decoder writes over any number of successive calls, each
    with fuel for the whole input. *)
Theorem blanks_do_not_change_symbols :
  forall s s' calls fuel fuel' val (x : world D),
    blanks_inserted s s' ->
    (List.length s < fuel)%nat -> (List.length s' < fuel')%nat ->
    written (log (decode_calls D calls fuel' val (with_stdin D s' x)))
    = written (log (decode_calls D calls fuel val (with_stdin D s x)))
    /\ written (log (decode_calls D calls fuel val (with_stdin D s x)))
       = written (log x) ++ firstn calls (symbols s).
Proof.
  intros s s' calls fuel fuel' val x Hi Hf Hf'.
  rewrite !decode_calls_written by assumption.
  cbn [with_stdin stdin log]. rewrite (symbols_insert _ _ Hi).
  split; reflexivity.
Qed.

(** ** The output gate *)

(** C8: a half-tick prints the data output in decimal and a newline when the
    validity output is 1, and nothing otherwise; and the output of a whole
    run is that of its half-ticks in order, followed, when [main] returns
    with capture enabled, by the notice of the trace file. *)
Theorem output_gate :
  (forall sync_clk (x : world D),
     let t := clocked D sync_clk (top x) in
     stdout (final (viterbi_clock_and_output D sync_clk x))
     = if p_data__valid t =? 1
       then (stdout x ++ decimal (p_data t) ++ newline)%string
       else stdout x)
  /\ (forall fuel argc argv input,
        let r := main D fuel argc argv (init_world D input) in
        stdout (final r)
        = (gate_output (log (final r))
           ++ match returned r with
              | Some _ =>
                  if argc >? 1
                  then "Writing " ++ nth 1 argv EmptyString ++ newline
                  else EmptyString
              | None => EmptyString
              end)%string).
Proof.
  split.
  - intros sync_clk x t. rewrite clock_and_output_eq. cbn [final].
    unfold half_tick, gate_line. cbn [stdout]. fold t.
    destruct (p_data__valid t =? 1); [reflexivity | apply string_app_nil_r].
  - intros fuel argc argv input r. subst r. rewrite main_eq. cbv zeta.
    set (cap := if argc >? 1 then 1 else 0).
    set (x0 := if argc >? 1 then _ else _).
    assert (H : (fun y : world D => stdout y = gate_output (log y))
                  (final (main_loop D fuel fuel cap 0 0 0 x0))).
    { apply main_loop_invariant.
      - intros y y' (S1 & _ & _ & l & L1 & L2) A.
        rewrite S1, L1, gate_output_app, (gate_output_decoder_events _ L2),
          string_app_nil_r. exact A.
      - intros j y A.
        destruct (full_tick_facts cap j y) as (_ & _ & _ & _ & L1 & S1).
        rewrite S1, L1, gate_output_app, A. reflexivity.
      - unfold x0. destruct (argc >? 1); reflexivity. }
    cbv beta in H.
    destruct (main_loop D fuel fuel cap 0 0 0 x0) as [a y|y];
      cbn [final returned] in *.
    + destruct (argc >? 1); cbn [write_file print stdout log].
      * rewrite H. reflexivity.
      * rewrite string_app_nil_r. exact H.
    + rewrite string_app_nil_r. exact H.
Qed.

(** ** A pair cut short *)

(** C4, as the code has it: when the fill of X0 succeeds and the fill of X1
    reports the stop status, the loop counter is reset all the same and the
    loop goes on for 256 full ticks: the design is clocked 256 times with the
    value just written to X0 and the value X1 had before. *)
Theorem half_filled_pair_is_clocked :
  forall fuel gfuel cap i j (x x1 x2 : world D),
    i < 256 ->
    viterbi_getc_value D gfuel X0 x = Ok 0 x1 ->
    viterbi_getc_value D gfuel X1 x1 = Ok (-1) x2 ->
    (256 < fuel)%nat ->
    let r := main_loop D fuel gfuel cap i 0 j x in
    returned r = Some (-1, j + (if cap =? 1 then 2 else 0) * 256)
    /\ (exists v,
          written (log x1) = written (log x) ++ [v]
          /\ p_x0 (top x1) = value_set (x0_bits D) v
          /\ p_x0 (top (final r)) = value_set (x0_bits D) v)
    /\ p_x1 (top (final r)) = p_x1 (top x)
    /\ top (final r) = Nat.iter 256 (tick_top D) (top x1)
    /\ exists l,
         log (final r) = log x2 ++ l
         /\ count is_clk_high l = 256
         /\ count is_step l = 1024
         /\ count is_getchar l = 0
         /\ count is_set l = 0.
Proof.
  intros fuel gfuel cap i j x x1 x2 Hi H0 H1 Hf r.
  assert (Hr : refill D gfuel i 0 x = Ok (-1, 0) x2).
  { unfold refill, bind. cbn [Z.eqb]. rewrite H0. cbn [Z.eqb]. rewrite H1.
    reflexivity. }
  assert (E : r = Ok (-1, fst (ticks D 256 cap (j, x2)))
                     (snd (ticks D 256 cap (j, x2)))).
  { subst r.
    rewrite (main_loop_stop fuel gfuel cap i 0 j (-1) 0 x x2);
      try assumption; try lia.
    change (Z.to_nat (256 - 0)) with 256%nat. reflexivity. }
  rewrite E. cbn [returned final].
  destruct (ticks_facts 256 cap j x2)
    as (F1 & _ & F3 & F4 & F5 & l & L0 & L1 & _ & L3 & _ & _ & L6 & L7).
  destruct (getc_success _ _ _ _ H0) as (ws & b & s & _ & _ & _ & S4).
  assert (Ha : (-1) <> 0) by lia.
  destruct (getc_failure _ _ _ _ _ H1 Ha) as (_ & T2 & _).
  split; [rewrite F1; reflexivity|].
  split.
  { exists (symbol_value (code b)). rewrite F4, T2, S4.
    cbn [wrote consumed emit upd_top log top port_write port_bits
         with_x0 p_x0].
    rewrite !written_app, written_getchars, app_nil_r.
    repeat split. }
  split; [rewrite F5, T2, S4; reflexivity|].
  split; [rewrite F3, T2; reflexivity|].
  exists l. repeat split; assumption.
Qed.

(** ** The input 12 *)

(** C2, as the code has it: on an input that starts with the bytes 1 and 2
    and a stop byte, X0 is filled with 1 and X1 with 2, one full tick is
    made before the next byte is read, and when the refill reports the stop
    status the run goes on for 255 full ticks more, with the same values in
    the ports, before [main] returns 0: 256 full ticks in all. *)
Theorem run_12_then_stop :
  forall b rest fuel argc argv,
    is_stop (code b) = true -> (257 <= fuel)%nat ->
    let r := main D fuel argc argv (init_world D (x31 :: x32 :: b :: rest)) in
    returned r = Some 0
    /\ stdin (final r) = rest
    /\ p_x0 (top (final r)) = value_set (x0_bits D) 1
    /\ p_x1 (top (final r)) = value_set (x1_bits D) 2
    /\ count is_clk_high (log (final r)) = 256
    /\ exists l1 l2,
         log (final r)
         = [EvGetchar 49; EvSet X0 1; EvGetchar 50; EvSet X1 2]
           ++ l1 ++ EvGetchar (code b) :: l2
         /\ count is_clk_high l1 = 1 /\ count is_step l1 = 4
         /\ count is_getchar l1 = 0 /\ count is_set l1 = 0
         /\ count is_clk_high l2 = 255 /\ count is_step l2 = 1020
         /\ count is_getchar l2 = 0 /\ count is_set l2 = 0.
Proof.
  intros b rest fuel argc argv Hb Hf r.
  set (cap := if argc >? 1 then 1 else 0).
  set (x0 := if argc >? 1
             then with_w D (mk_vcd D true
                    (buffer (w (init_world D (x31 :: x32 :: b :: rest)))))
                    (init_world D (x31 :: x32 :: b :: rest))
             else init_world D (x31 :: x32 :: b :: rest)).
  assert (Hs0 : stdin x0 = x31 :: x32 :: b :: rest)
    by (unfold x0; destruct (argc >? 1); reflexivity).
  assert (Hl0 : log x0 = []) by (unfold x0; destruct (argc >? 1); reflexivity).
  destruct fuel as [|fuel]; [lia|].
  set (x1 := wrote D X0 1 (read D 49 (x32 :: b :: rest) x0)).
  set (x2 := wrote D X1 2 (read D 50 (b :: rest) x1)).
  assert (Hr1 : refill D (S fuel) 0 0 x0 = Ok (0, 0) x2).
  { unfold refill, bind. cbn [Z.eqb].
    rewrite (getc_symbol fuel X0 x0 x31 _ Hs0 eq_refl). cbn [Z.eqb].
    change (wrote D X0 (symbol_value (code x31))
              (read D (code x31) (x32 :: b :: rest) x0)) with x1.
    rewrite (getc_symbol fuel X1 x1 x32 (b :: rest) eq_refl eq_refl).
    reflexivity. }
  destruct (full_tick_facts cap 0 x2) as (_ & G2 & _ & G4 & G5 & _).
  destruct (full_tick D cap (0, x2)) as [j1 x3] eqn:Et. cbn [fst snd] in *.
  set (x4 := read D (code b) rest x3).
  assert (Hr2 : refill D (S fuel) 1 0 x3 = Ok (-1, 1) x4).
  { unfold refill, bind. cbn [Z.eqb].
    rewrite (getc_stop fuel X0 x3 b rest G2 Hb). reflexivity. }
  assert (E : main_loop D (S fuel) (S fuel) cap 0 0 0 x0
              = Ok (-1, fst (ticks D 255 cap (j1, x4)))
                   (snd (ticks D 255 cap (j1, x4)))).
  { rewrite main_loop_unfold. cbn [Z.ltb Z.compare]. rewrite Hr1. cbv zeta.
    rewrite Et. cbn [fst snd Z.add Pos.add].
    rewrite (main_loop_stop fuel (S fuel) cap 1 0 j1 (-1) 1 x3 x4);
      try assumption; try lia.
    change (Z.to_nat (256 - 1)) with 255%nat. reflexivity. }
  destruct (ticks_facts 255 cap j1 x4)
    as (_ & F2 & _ & F4 & F5 & l2 & L0 & L1 & _ & L3 & _ & _ & L6 & L7).
  destruct (tick_top_inputs (top x2)) as [T0 T1].
  destruct (count_tick_events cap 0 (top x2))
    as (C1 & _ & C3 & _ & _ & C6 & C7).
  assert (Hlog : log (final r)
                 = [EvGetchar 49; EvSet X0 1; EvGetchar 50; EvSet X1 2]
                   ++ tick_events D cap 0 (top x2)
                   ++ EvGetchar (code b) :: l2).
  { subst r. rewrite main_log. fold cap. fold x0. rewrite E. cbn [final].
    rewrite L0. unfold x4. cbn [read emit with_stdin log]. rewrite G5.
    unfold x2, x1. cbn [wrote read emit upd_top with_stdin log].
    rewrite Hl0, <- !app_assoc. reflexivity. }
  subst r. rewrite main_eq. cbv zeta. fold cap. fold x0.
  rewrite main_eq in Hlog. cbv zeta in Hlog. fold cap in Hlog.
  fold x0 in Hlog. rewrite E in *. cbn [returned final] in *.
  assert (Hfin : forall y : world D,
            stdin (if argc >? 1
                   then write_file D (nth 1 argv EmptyString)
                          (print D ("Writing " ++ nth 1 argv EmptyString
                                    ++ newline)%string y)
                   else y) = stdin y
            /\ top (if argc >? 1
                    then write_file D (nth 1 argv EmptyString)
                           (print D ("Writing " ++ nth 1 argv EmptyString
                                     ++ newline)%string y)
                    else y) = top y)
    by (intros y; destruct (argc >? 1); split; reflexivity).
  destruct (Hfin (snd (ticks D 255 cap (j1, x4)))) as [-> ->].
  split; [reflexivity|].
  split; [rewrite F2; reflexivity|].
  split; [rewrite F4; unfold x4; cbn [read emit with_stdin top];
          rewrite G4, T0; reflexivity|].
  split; [rewrite F5; unfold x4; cbn [read emit with_stdin top];
          rewrite G4, T1; reflexivity|].
  split.
  { rewrite Hlog, !count_app, C3.
    change (EvGetchar (code b) :: l2) with ([EvGetchar (code b)] ++ l2).
    rewrite count_app, L3. reflexivity. }
  exists (tick_events D cap 0 (top x2)), l2.
  split; [exact Hlog|]. repeat split; assumption.
Qed.

(** * More on the decoder *)

Lemma getc_blank_tail_hangs fuel : forall val (x : world D),
  Forall (fun b => is_blank (code b) = true) (stdin x) ->
  returned (viterbi_getc_value D fuel val x) = None.
Proof.
  induction fuel as [|fuel IH]; intros val x H; [reflexivity|].
  destruct (stdin x) as [|b s] eqn:Hs.
  - apply getc_eof_hangs. exact Hs.
  - inversion H as [|? ? Hb Hr]; subst.
    rewrite (getc_unfold _ _ _ _ _ Hs).
    destruct (blank_not_symbol _ Hb) as [-> ->]. rewrite Hb.
    apply IH. exact Hr.
Qed.

Lemma nonblank_split s :
  has_nonblank s = true ->
  exists ws c r,
    s = ws ++ c :: r
    /\ Forall (fun b => is_blank (code b) = true) ws
    /\ is_blank (code c) = false.
Proof.
  unfold has_nonblank. induction s as [|b s IH]; intros H; [discriminate H|].
  cbn [existsb] in H. destruct (is_blank (code b)) eqn:Eb.
  - cbn [negb orb] in H. destruct (IH H) as (ws & c & r & E & F & N).
    exists (b :: ws), c, r. rewrite E. repeat split; auto.
  - exists [], b, s. repeat split; auto.
Qed.

Lemma all_blank s :
  has_nonblank s = false -> Forall (fun b => is_blank (code b) = true) s.
Proof.
  unfold has_nonblank. induction s as [|b s IH]; intros H; [constructor|].
  cbn [existsb] in H. apply orb_false_iff in H. destruct H as [Hb Hs].
  apply negb_false_iff in Hb. constructor; [exact Hb | exact (IH Hs)].
Qed.

(** X8: a call of the decoder returns, given fuel, exactly when a byte
    above 32 is left in the input; on an input of blanks only, as on the
    empty one, it never returns. *)
Theorem decoder_returns_iff_nonblank_ahead :
  forall val (x : world D),
    (exists fuel, returned (viterbi_getc_value D fuel val x) <> None)
    <-> has_nonblank (stdin x) = true.
Proof.
  intros val x. split.
  - intros [fuel H]. destruct (has_nonblank (stdin x)) eqn:E; [reflexivity|].
    exfalso. apply H. apply getc_blank_tail_hangs. apply all_blank. exact E.
  - intros H. destruct (nonblank_split _ H) as (ws & c & r & E & F & N).
    exists (List.length ws + 1)%nat.
    rewrite (getc_blanks ws 1 val (c :: r) x F E).
    rewrite (getc_unfold 0 val (consumed D ws (c :: r) x) c r eq_refl).
    rewrite N.
    destruct (is_digit (code c)); [discriminate|].
    destruct (is_letter (code c)); discriminate.
Qed.

(** What a call leaves alone in the design. *)
Lemma port_write_frame val v (t : p_top (dstate D)) :
  p_clk (port_write D val v t) = p_clk t
  /\ p_sync__tb__clk (port_write D val v t) = p_sync__tb__clk t
  /\ p_data (port_write D val v t) = p_data t
  /\ p_data__valid (port_write D val v t) = p_data__valid t
  /\ p_state (port_write D val v t) = p_state t
  /\ (forall other, other <> val ->
        port_get D other (port_write D val v t) = port_get D other t).
Proof.
  destruct val; cbn; repeat split; intros [] H; try reflexivity;
    contradiction.
Qed.

(** X7: whatever a call of the decoder on a port does, it changes nothing
    of the design but that port: the other stimulus port, the two clocks,
    the outputs and the state are as before, and so are the printed output
    and the trace recorder.  A call that reports success has written the
    masked symbol to its port; a call that reports -1 has left the design
    alone and has read blanks and exactly one stop byte. *)
Theorem decoder_touches_its_port_only :
  forall fuel val a (x x' : world D),
    viterbi_getc_value D fuel val x = Ok a x' ->
    p_clk (top x') = p_clk (top x)
    /\ p_sync__tb__clk (top x') = p_sync__tb__clk (top x)
    /\ p_data (top x') = p_data (top x)
    /\ p_data__valid (top x') = p_data__valid (top x)
    /\ p_state (top x') = p_state (top x)
    /\ (forall other, other <> val ->
          port_get D other (top x') = port_get D other (top x))
    /\ stdout x' = stdout x /\ w x' = w x /\ files x' = files x
    /\ (a = 0 \/ a = -1)
    /\ (a = 0 ->
        exists ws b s,
          stdin x = ws ++ b :: s /\ stdin x' = s
          /\ Forall (fun b => is_blank (code b) = true) ws
          /\ port_get D val (top x')
             = value_set (port_bits D val) (symbol_value (code b))
          /\ 0 <= symbol_value (code b) <= 25)
    /\ (a = -1 ->
        top x' = top x
        /\ exists ws b s,
             stdin x = ws ++ b :: s /\ stdin x' = s
             /\ Forall (fun b => is_blank (code b) = true) ws
             /\ is_stop (code b) = true).
Proof.
  intros fuel val a x x' H.
  pose proof (getc_frame fuel val x) as F. rewrite H in F. cbn [final] in F.
  destruct F as (F1 & F2 & F3 & _).
  destruct (Z.eq_dec a 0) as [Ea|Ea].
  - subst a. destruct (getc_success _ _ _ _ H) as (ws & b & s & S1 & S2 & S3 & S4).
    destruct (port_write_frame val
                (value_set (port_bits D val) (symbol_value (code b))) (top x))
      as (P1 & P2 & P3 & P4 & P5 & P6).
    assert (T : top x' = port_write D val
                  (value_set (port_bits D val) (symbol_value (code b)))
                  (top x)) by (rewrite S4; reflexivity).
    rewrite T.
    do 5 (split; [assumption|]). split; [exact P6|].
    do 3 (split; [assumption|]). split; [left; reflexivity|].
    split; [|intros C; discriminate C].
    intros _. exists ws, b, s.
    split; [exact S1|]. split; [rewrite S4; reflexivity|].
    split; [exact S2|]. split; [apply port_get_write|].
    unfold symbol_value. destruct (is_digit (code b)) eqn:Ed.
    + apply is_digit_range in Ed. lia.
    + cbn [orb] in S3. apply is_letter_range in S3. lia.
  - destruct (getc_failure _ _ _ _ _ H Ea)
      as (A1 & A2 & ws & b & s & B1 & B2 & B3 & B4).
    rewrite A2. do 5 (split; [reflexivity|]).
    split; [intros; reflexivity|].
    do 3 (split; [assumption|]). split; [right; exact A1|].
    split; [intros C; contradiction|].
    intros _. split; [reflexivity|]. exists ws, b, s.
    split; [exact B1|]. split; [rewrite B4; reflexivity|].
    split; assumption.
Qed.

(** * Whole runs *)

Lemma sets_app l1 l2 : sets (l1 ++ l2) = sets l1 ++ sets l2.
Proof.
  induction l1 as [|e l1 IH]; [reflexivity|].
  destruct e; cbn [app sets]; rewrite ?IH; reflexivity.
Qed.

Lemma sets_getchars (l : list byte) :
  sets (map (fun b => EvGetchar (code b)) l) = [].
Proof. induction l as [|a l IH]; [reflexivity | exact IH]. Qed.

Lemma sets_none l : count is_set l = 0 -> sets l = [].
Proof.
  unfold count. induction l as [|e l IH]; intros H; [reflexivity|].
  destruct e; cbn [filter is_set sets] in *; try (apply IH; exact H).
  cbn [List.length] in H. lia.
Qed.

Lemma count_getchars f (l : list byte) :
  (forall c, f (EvGetchar c) = true) ->
  count f (map (fun b => EvGetchar (code b)) l) = Z.of_nat (List.length l).
Proof.
  intros Hf. unfold count. induction l as [|a l IH]; [reflexivity|].
  cbn [map filter]. rewrite Hf. cbn [List.length]. lia.
Qed.

Lemma count_getchars_none f (l : list byte) :
  (forall c, f (EvGetchar c) = false) ->
  count f (map (fun b => EvGetchar (code b)) l) = 0.
Proof.
  intros Hf. unfold count. induction l as [|a l IH]; [reflexivity|].
  cbn [map filter]. rewrite Hf. exact IH.
Qed.

Lemma count_one f e : count f [e] = if f e then 1 else 0.
Proof. unfold count. cbn [filter]. destruct (f e); reflexivity. Qed.

Lemma nonstop_cases c :
  is_stop c = false ->
  is_digit c || is_letter c = true \/ is_blank c = true.
Proof.
  unfold is_stop.
  destruct (is_digit c), (is_letter c), (is_blank c); cbn; intros H;
    try discriminate H; auto.
Qed.

(** A call with a stop byte ahead and fuel for the bytes before it: it
    reports the stop when only blanks come first, and else reads the first
    symbol. *)
Lemma getc_before_stop pre : forall fuel val (x : world D) b rest,
  stdin x = pre ++ b :: rest ->
  Forall (fun b => is_stop (code b) = false) pre ->
  is_stop (code b) = true ->
  (List.length pre < fuel)%nat ->
  (symbols pre = []
   /\ viterbi_getc_value D fuel val x
      = Ok (-1) (consumed D (pre ++ [b]) rest x))
  \/ (exists ws c pre',
        pre = ws ++ c :: pre'
        /\ symbols pre = symbol_value (code c) :: symbols pre'
        /\ viterbi_getc_value D fuel val x
           = Ok 0 (wrote D val (symbol_value (code c))
                     (consumed D (ws ++ [c]) (pre' ++ b :: rest) x))).
Proof.
  induction pre as [|c pre IH]; intros fuel val x b rest Hs Hn Hb Hf;
    (destruct fuel as [|fuel]; [cbn in Hf; lia|]).
  - left. split; [reflexivity|]. cbn [app] in Hs.
    rewrite (getc_stop _ _ _ _ _ Hs Hb). reflexivity.
  - cbn [app] in Hs. inversion Hn as [|? ? Hc Hn']; subst.
    destruct (nonstop_cases _ Hc) as [Hm|Hbl].
    + right. exists [], c, pre. split; [reflexivity|].
      split; [cbn [symbols]; rewrite Hm; reflexivity|].
      rewrite (getc_symbol _ _ _ _ _ Hs Hm). reflexivity.
    + rewrite (getc_unfold _ _ _ _ _ Hs).
      destruct (blank_not_symbol _ Hbl) as [Ed El]. rewrite Ed, El, Hbl.
      assert (Hf' : (List.length pre < fuel)%nat) by (cbn in Hf; lia).
      destruct (IH fuel val (read D (code c) (pre ++ b :: rest) x) b rest
                  eq_refl Hn' Hb Hf')
        as [[S0 E]|(ws & c' & pre' & P & S0 & E)].
      * left. split; [cbn [symbols]; rewrite Ed, El, Hbl; exact S0|].
        rewrite E, consumed_cons. reflexivity.
      * right. exists (c :: ws), c', pre'. split; [rewrite P; reflexivity|].
        split; [cbn [symbols]; rewrite Ed, El, Hbl; exact S0|].
        rewrite E, consumed_cons. reflexivity.
Qed.

Lemma run_ticks_closed m : forall i,
  run_ticks i m
  = match m with O => 256 - i | _ => 255 + (Z.of_nat m + 1) / 2 end
  /\ run_ticks i (S m) = 255 + (Z.of_nat (S m) + 1) / 2.
Proof.
  induction m as [|m IH]; intros i.
  - split; reflexivity.
  - destruct (IH i) as [_ H1]. split; [exact H1|].
    cbn [run_ticks]. destruct (IH 1) as [H0 _]. rewrite H0.
    destruct m as [|m].
    + reflexivity.
    + replace (Z.of_nat (S (S (S m))) + 1) with (Z.of_nat (S m) + 1 + 1 * 2)
        by lia.
      rewrite Z.div_add by lia. lia.
Qed.

(** The loop with a stop byte ahead: it ends, has read the input up to and
    with the stop byte, has dealt the symbols to the ports and has made
    [run_ticks] full ticks. *)
Lemma main_loop_run n : forall pre fuel gfuel cap i j (x : world D) b rest,
  (List.length pre < n)%nat ->
  stdin x = pre ++ b :: rest ->
  Forall (fun b => is_stop (code b) = false) pre ->
  is_stop (code b) = true ->
  0 <= i < 256 ->
  (List.length pre < gfuel)%nat ->
  (List.length pre + 257 <= fuel)%nat ->
  exists j' x',
    main_loop D fuel gfuel cap i 0 j x = Ok (-1, j') x'
    /\ stdin x' = rest
    /\ count is_clk_high (log x')
       = count is_clk_high (log x)
         + run_ticks i (List.length (symbols pre))
    /\ count is_getchar (log x')
       = count is_getchar (log x) + Z.of_nat (List.length pre) + 1
    /\ sets (log x') = sets (log x) ++ assign (symbols pre).
Proof.
  induction n as [|n IH];
    intros pre fuel gfuel cap i j x b rest Hn Hs Hp Hb Hi Hg Hf; [lia|].
  destruct (getc_before_stop pre gfuel X0 x b rest Hs Hp Hb Hg)
    as [[S0 E0]|(ws & c & pre1 & P & S0 & E0)].
  - (* the stop byte comes first *)
    assert (Hr : refill D gfuel i 0 x
                 = Ok (-1, i) (consumed D (pre ++ [b]) rest x)).
    { unfold refill, bind. cbn [Z.eqb]. rewrite E0. reflexivity. }
    rewrite (main_loop_stop fuel gfuel cap i 0 j (-1) i x _ (proj2 Hi) Hi Hr)
      by lia.
    destruct (ticks_facts (Z.to_nat (256 - i)) cap j
                (consumed D (pre ++ [b]) rest x))
      as (_ & F2 & _ & _ & _ & l & L0 & _ & _ & L3 & _ & _ & L6 & L7).
    eexists. eexists. split; [reflexivity|].
    split; [rewrite F2; reflexivity|].
    rewrite L0. cbn [consumed log]. rewrite !count_app, !sets_app.
    rewrite sets_getchars, (sets_none _ L7), L3, L6, S0.
    rewrite (count_getchars_none is_clk_high) by reflexivity.
    rewrite (count_getchars is_getchar) by reflexivity.
    rewrite length_app. cbn [List.length run_ticks assign].
    rewrite !app_nil_r. repeat split; lia.
  - set (x1 := wrote D X0 (symbol_value (code c))
                 (consumed D (ws ++ [c]) (pre1 ++ b :: rest) x)) in *.
    assert (Hp1 : Forall (fun b => is_stop (code b) = false) pre1).
    { rewrite P in Hp. apply Forall_app in Hp. destruct Hp as [_ Hp].
      inversion Hp; assumption. }
    assert (Hl : List.length pre
                 = (List.length ws + 1 + List.length pre1)%nat).
    { rewrite P, length_app. cbn. lia. }
    assert (Hg1 : (List.length pre1 < gfuel)%nat) by lia.
    assert (Hlog1 : log x1 = log x
                      ++ map (fun b => EvGetchar (code b)) (ws ++ [c])
                      ++ [EvSet X0 (symbol_value (code c))]).
    { unfold x1. cbn [wrote consumed emit upd_top log].
      rewrite <- app_assoc. reflexivity. }
    destruct (getc_before_stop pre1 gfuel X1 x1 b rest eq_refl Hp1 Hb Hg1)
      as [[S1 E1]|(ws1 & c1 & pre2 & P1 & S1 & E1)].
    + (* the pair is cut short *)
      assert (Hr : refill D gfuel i 0 x
                   = Ok (-1, 0) (consumed D (pre1 ++ [b]) rest x1)).
      { unfold refill, bind. cbn [Z.eqb]. rewrite E0. cbn [Z.eqb].
        fold x1. rewrite E1. reflexivity. }
      assert (H0 : 0 <= 0 < 256) by lia.
      rewrite (main_loop_stop fuel gfuel cap i 0 j (-1) 0 x _ (proj2 Hi) H0 Hr)
        by lia.
      destruct (ticks_facts (Z.to_nat (256 - 0)) cap j
                  (consumed D (pre1 ++ [b]) rest x1))
        as (_ & F2 & _ & _ & _ & l & L0 & _ & _ & L3 & _ & _ & L6 & L7).
      eexists. eexists. split; [reflexivity|].
      split; [rewrite F2; reflexivity|].
      rewrite L0. cbn [consumed log]. rewrite Hlog1.
      rewrite !count_app, !sets_app.
      rewrite !sets_getchars, (sets_none _ L7), L3, L6, S0, S1.
      rewrite !(count_getchars_none is_clk_high) by reflexivity.
      rewrite !(count_getchars is_getchar) by reflexivity.
      rewrite !length_app, !count_one.
      cbn [List.length run_ticks assign sets is_clk_high is_getchar app].
      rewrite !app_nil_r. repeat split; lia.
    + (* a whole pair, a tick and the rest *)
      set (x2 := wrote D X1 (symbol_value (code c1))
                   (consumed D (ws1 ++ [c1]) (pre2 ++ b :: rest) x1)) in *.
      assert (Hr : refill D gfuel i 0 x = Ok (0, 0) x2).
      { unfold refill, bind. cbn [Z.eqb]. rewrite E0. cbn [Z.eqb].
        fold x1. rewrite E1. reflexivity. }
      assert (Hp2 : Forall (fun b => is_stop (code b) = false) pre2).
      { rewrite P1 in Hp1. apply Forall_app in Hp1. destruct Hp1 as [_ Hp1].
        inversion Hp1; assumption. }
      assert (Hl1 : List.length pre1
                    = (List.length ws1 + 1 + List.length pre2)%nat).
      { rewrite P1, length_app. cbn. lia. }
      destruct fuel as [|fuel]; [lia|].
      rewrite main_loop_unfold. destruct (Z.ltb_spec i 256); [|lia].
      rewrite Hr. cbv zeta. cbn [fst snd].
      destruct (full_tick_facts cap j x2) as (_ & G2 & _ & _ & G5 & _).
      destruct (full_tick D cap (j, x2)) as [j1 x3]. cbn [fst snd] in *.
      assert (H1 : 0 <= 0 + 1 < 256) by lia.
      assert (Hs3 : stdin x3 = pre2 ++ b :: rest)
        by (rewrite G2; reflexivity).
      assert (Hn2 : (List.length pre2 < n)%nat) by lia.
      assert (Hg2 : (List.length pre2 < gfuel)%nat) by lia.
      assert (Hf2 : (List.length pre2 + 257 <= fuel)%nat) by lia.
      destruct (IH pre2 fuel gfuel cap (0 + 1) j1 x3 b rest
                  Hn2 Hs3 Hp2 Hb H1 Hg2 Hf2)
        as (j' & x' & R1 & R2 & R3 & R4 & R5).
      exists j', x'. split; [exact R1|]. split; [exact R2|].
      destruct (count_tick_events cap j (top x2))
        as (_ & _ & C3 & _ & _ & C6 & C7).
      assert (Hlog2 : log x2 = log x1
                        ++ map (fun b => EvGetchar (code b)) (ws1 ++ [c1])
                        ++ [EvSet X1 (symbol_value (code c1))]).
      { unfold x2. cbn [wrote consumed emit upd_top log].
        rewrite <- app_assoc. reflexivity. }
      rewrite R3, R4, R5, G5, Hlog2, Hlog1.
      rewrite !count_app, !sets_app, C3, C6, (sets_none _ C7).
      rewrite !sets_getchars, S0, S1.
      rewrite !(count_getchars_none is_clk_high) by reflexivity.
      rewrite !(count_getchars is_getchar) by reflexivity.
      rewrite !length_app, !count_one.
      cbn [List.length run_ticks assign sets is_clk_high is_getchar app].
      rewrite !app_nil_r, <- !app_assoc. cbn [app].
      change (0 + 1) with 1. repeat split; lia.
Qed.

Lemma stop_split s :
  has_stop s = true ->
  exists pre b rest,
    s = pre ++ b :: rest
    /\ Forall (fun b => is_stop (code b) = false) pre
    /\ is_stop (code b) = true.
Proof.
  unfold has_stop. induction s as [|c s IH]; intros H; [discriminate H|].
  cbn [existsb] in H. destruct (is_stop (code c)) eqn:Ec.
  - exists [], c, s. repeat split; auto.
  - cbn [orb] in H. destruct (IH H) as (pre & b & rest & E & F & S').
    exists (c :: pre), b, rest. rewrite E. repeat split; auto.
Qed.

Lemma no_stop s :
  has_stop s = false -> Forall (fun b => is_stop (code b) = false) s.
Proof.
  unfold has_stop. induction s as [|c s IH]; intros H; [constructor|].
  cbn [existsb] in H. apply orb_false_iff in H. destruct H as [Hc Hs].
  constructor; [exact Hc | exact (IH Hs)].
Qed.

Lemma symbols_before_stop pre b rest :
  Forall (fun b => is_stop (code b) = false) pre ->
  is_stop (code b) = true ->
  symbols (pre ++ b :: rest) = symbols pre.
Proof.
  intros Hp Hb. induction Hp as [|c pre Hc _ IH].
  - cbn [app symbols]. destruct (stop_cases _ Hb) as (-> & -> & ->).
    reflexivity.
  - cbn [app symbols]. rewrite IH. reflexivity.
Qed.

Lemma symbols_bounds s : Forall (fun v => 0 <= v <= 25) (symbols s).
Proof.
  induction s as [|b s IH]; [constructor|]. cbn [symbols].
  destruct (is_digit (code b)) eqn:Ed.
  - cbn [orb]. constructor; [|exact IH]. unfold symbol_value. rewrite Ed.
    apply is_digit_range in Ed. lia.
  - destruct (is_letter (code b)) eqn:El; cbn [orb].
    + constructor; [|exact IH]. unfold symbol_value. rewrite Ed.
      apply is_letter_range in El. lia.
    + destruct (is_blank (code b)); [exact IH | constructor].
Qed.

(** [main] on an input with a stop byte. *)
Lemma main_run pre b rest fuel argc argv :
  Forall (fun b => is_stop (code b) = false) pre ->
  is_stop (code b) = true ->
  (List.length pre + 257 <= fuel)%nat ->
  exists x',
    main D fuel argc argv (init_world D (pre ++ b :: rest)) = Ok 0 x'
    /\ stdin x' = rest
    /\ count is_clk_high (log x') = run_ticks 0 (List.length (symbols pre))
    /\ count is_getchar (log x') = Z.of_nat (List.length pre) + 1
    /\ sets (log x') = assign (symbols pre).
Proof.
  intros Hp Hb Hf. rewrite main_eq. cbv zeta.
  set (cap := if argc >? 1 then 1 else 0).
  set (x0 := if argc >? 1 then _ else _).
  assert (Hs0 : stdin x0 = pre ++ b :: rest)
    by (unfold x0; destruct (argc >? 1); reflexivity).
  assert (Hl0 : log x0 = [])
    by (unfold x0; destruct (argc >? 1); reflexivity).
  assert (Hi : 0 <= 0 < 256) by lia.
  assert (Hn : (List.length pre < S (List.length pre))%nat) by lia.
  assert (Hg : (List.length pre < fuel)%nat) by lia.
  destruct (main_loop_run (S (List.length pre)) pre fuel fuel cap 0 0 x0
              b rest Hn Hs0 Hp Hb Hi Hg Hf)
    as (j' & x' & R1 & R2 & R3 & R4 & R5).
  rewrite R1. rewrite Hl0 in R3, R4, R5. cbn in R3, R4, R5.
  eexists. split; [reflexivity|].
  destruct (argc >? 1); cbn [write_file print stdin log];
    repeat split; assumption.
Qed.

(** X1: given fuel, [main] returns, with 0, exactly when the input has a
    stop byte: a byte above 32 that is neither a digit nor a lower-case
    letter.  On any other input, however long, it reads on at the end of
    the input and never returns. *)
Theorem main_returns_iff_stop_byte :
  forall argc argv input,
    (exists fuel,
       returned (main D fuel argc argv (init_world D input)) <> None)
    <-> has_stop input = true.
Proof.
  intros argc argv input. split.
  - intros [fuel H]. destruct (has_stop input) eqn:E; [reflexivity|].
    exfalso. apply H. apply main_no_exit. apply no_stop. exact E.
  - intros H. destruct (stop_split _ H) as (pre & b & rest & E & F & S').
    exists (List.length pre + 257)%nat. subst input.
    destruct (main_run pre b rest (List.length pre + 257) argc argv F S')
      as (x' & R & _); [lia|].
    rewrite R. discriminate.
Qed.

(** X2: on an input with a stop byte and with fuel for it, [main] returns 0;
    it has read every byte up to and with the first stop byte, once each,
    and none after it; and with [m] symbols before the stop byte it has made
    256 full ticks when [m] is 0 and 255 more than the number of pairs, a
    last half pair counted as one, otherwise. *)
Theorem run_length_with_stop_byte :
  forall pre b rest fuel argc argv,
    Forall (fun b => is_stop (code b) = false) pre ->
    is_stop (code b) = true ->
    (List.length pre + 257 <= fuel)%nat ->
    let input := pre ++ b :: rest in
    let r := main D fuel argc argv (init_world D input) in
    let m := List.length (symbols input) in
    returned r = Some 0
    /\ stdin (final r) = rest
    /\ count is_getchar (log (final r)) = Z.of_nat (List.length pre) + 1
    /\ count is_clk_high (log (final r))
       = match m with
         | O => 256
         | _ => 255 + (Z.of_nat m + 1) / 2
         end.
Proof.
  intros pre b rest fuel argc argv Hp Hb Hf input r m.
  destruct (main_run pre b rest fuel argc argv Hp Hb Hf)
    as (x' & R & R2 & R3 & R4 & _).
  subst r input. rewrite R. cbn [returned final].
  split; [reflexivity|]. split; [exact R2|]. split; [exact R4|].
  rewrite R3. subst m. rewrite (symbols_before_stop _ _ _ Hp Hb).
  destruct (run_ticks_closed (List.length (symbols pre)) 0) as [-> _].
  destruct (List.length (symbols pre)); reflexivity.
Qed.

(** * The order of the port writes *)

Lemma getc_timeout_sets fuel : forall val (x x' : world D),
  viterbi_getc_value D fuel val x = Timeout x' ->
  sets (log x') = sets (log x).
Proof.
  induction fuel as [|fuel IH]; intros val x x' H.
  - injection H as <-. reflexivity.
  - destruct (stdin x) as [|b s] eqn:Hs.
    + rewrite (getc_unfold_eof _ _ _ Hs) in H. apply IH in H. rewrite H.
      cbn [emit log]. rewrite sets_app. apply app_nil_r.
    + rewrite (getc_unfold _ _ _ _ _ Hs) in H.
      destruct (is_digit (code b)); [discriminate H|].
      destruct (is_letter (code b)); [discriminate H|].
      destruct (is_blank (code b)); [|discriminate H].
      apply IH in H. rewrite H. cbn [read emit with_stdin log].
      rewrite sets_app. apply app_nil_r.
Qed.

(** What a call adds to the port writes, with whatever fuel. *)
Lemma getc_sets fuel val (x : world D) :
  match viterbi_getc_value D fuel val x with
  | Ok a x' =>
      if a =? 0 then
        exists v, symbols (stdin x) = v :: symbols (stdin x')
                  /\ sets (log x') = sets (log x) ++ [(val, v)]
      else symbols (stdin x) = [] /\ sets (log x') = sets (log x)
  | Timeout x' => sets (log x') = sets (log x)
  end.
Proof.
  destruct (viterbi_getc_value D fuel val x) as [a x'|x'] eqn:E.
  - destruct (Z.eqb_spec a 0) as [Ea|Ea].
    + subst a. apply getc_success in E.
      destruct E as (ws & b & s & H1 & H2 & H3 & H4).
      exists (symbol_value (code b)). rewrite H4, H1.
      cbn [wrote consumed emit upd_top log stdin].
      rewrite (symbols_blanks _ _ H2). cbn [symbols]. rewrite H3.
      rewrite !sets_app, sets_getchars, app_nil_r. split; reflexivity.
    + destruct (getc_failure _ _ _ _ _ E Ea)
        as (_ & _ & ws & b & s & H1 & H2 & H3 & H4).
      rewrite H4, H1. cbn [consumed log].
      rewrite (symbols_blanks _ _ H2). cbn [symbols].
      destruct (stop_cases _ H3) as (-> & -> & ->). cbn [orb].
      rewrite sets_app, sets_getchars, app_nil_r. split; reflexivity.
  - apply (getc_timeout_sets _ _ _ _ E).
Qed.

Lemma full_tick_sets cap j (x : world D) :
  sets (log (snd (full_tick D cap (j, x)))) = sets (log x).
Proof.
  destruct (full_tick_facts cap j x) as (_ & _ & _ & _ & L & _).
  rewrite L, sets_app.
  destruct (count_tick_events cap j (top x)) as (_ & _ & _ & _ & _ & _ & C).
  rewrite (sets_none _ C). apply app_nil_r.
Qed.

Lemma main_loop_sets_stopped fuel : forall gfuel cap i input j (x : world D),
  input <> 0 ->
  sets (log (final (main_loop D fuel gfuel cap i input j x))) = sets (log x).
Proof.
  induction fuel as [|fuel IH]; intros gfuel cap i input j x Hin;
    [reflexivity|].
  rewrite main_loop_unfold. destruct (i <? 256); [|reflexivity].
  rewrite (refill_skip _ _ _ _ Hin). cbv zeta. cbn [fst snd].
  rewrite IH by assumption. apply full_tick_sets.
Qed.

Lemma main_loop_sets fuel : forall gfuel cap i j (x : world D),
  exists k,
    sets (log (final (main_loop D fuel gfuel cap i 0 j x)))
    = sets (log x) ++ assign (firstn k (symbols (stdin x)))
    /\ (returned (main_loop D fuel gfuel cap i 0 j x) <> None ->
        i < 256 ->
        firstn k (symbols (stdin x)) = symbols (stdin x)).
Proof.
  induction fuel as [|fuel IH]; intros gfuel cap i j x.
  - exists 0%nat. split; [cbn; symmetry; apply app_nil_r|].
    intros H. contradiction H. reflexivity.
  - rewrite main_loop_unfold.
    destruct (Z.ltb_spec i 256) as [Hi|Hi];
      [|exists 0%nat; split; [cbn; symmetry; apply app_nil_r | intros; lia]].
    unfold refill, bind. cbn [Z.eqb].
    pose proof (getc_sets gfuel X0 x) as G0.
    destruct (viterbi_getc_value D gfuel X0 x) as [a x1|x1].
    2:{ exists 0%nat. cbn [final firstn assign returned]. rewrite G0.
        split; [symmetry; apply app_nil_r|].
        intros H. contradiction H. reflexivity. }
    destruct (Z.eqb_spec a 0) as [Ea|Ea].
    + destruct G0 as (v0 & Y0 & Z0).
      pose proof (getc_sets gfuel X1 x1) as G1.
      destruct (viterbi_getc_value D gfuel X1 x1) as [a1 x2|x2].
      * unfold ret. cbv zeta. cbn [fst snd].
        destruct (Z.eqb_spec a1 0) as [Ea1|Ea1].
        -- destruct G1 as (v1 & Y1 & Z1).
           destruct (full_tick_facts cap j x2) as (_ & T2 & _).
           pose proof (full_tick_sets cap j x2) as T5.
           destruct (full_tick D cap (j, x2)) as [j1 x3].
           cbn [fst snd] in *. subst a1.
           destruct (IH gfuel cap (0 + 1) j1 x3) as (k & Hk & Hc).
           exists (S (S k)). split.
           ++ rewrite Hk, T5, T2, Z1, Z0, Y0, Y1.
              cbn [firstn assign]. rewrite <- !app_assoc. reflexivity.
           ++ intros Hr _. rewrite Y0, Y1. cbn [firstn].
              rewrite <- T2, Hc; [reflexivity | exact Hr | lia].
        -- destruct G1 as [Y1 Z1]. exists 1%nat. split.
           ++ rewrite main_loop_sets_stopped by assumption.
              rewrite full_tick_sets, Z1, Z0, Y0. reflexivity.
           ++ intros _ _. rewrite Y0, Y1. reflexivity.
      * exists 1%nat. cbn [final returned]. split.
        -- rewrite G1, Z0, Y0. reflexivity.
        -- intros H. contradiction H. reflexivity.
    + destruct G0 as [Y0 Z0].
      unfold ret. cbv zeta. cbn [fst snd]. exists 0%nat. split.
      * rewrite main_loop_sets_stopped by assumption.
        rewrite full_tick_sets, Z0. cbn. symmetry. apply app_nil_r.
      * intros _ _. rewrite Y0. reflexivity.
Qed.

(** X3: in every run, finished or not, the writes to the stimulus ports are
    symbols of the input in their order, from the first one on, dealt to X0
    and X1 in turn with X0 first; each symbol is between 0 and 25.  When
    [main] returns, every symbol before the first stop byte has been
    written. *)
Theorem ports_are_filled_in_turn :
  forall fuel argc argv input,
    let r := main D fuel argc argv (init_world D input) in
    (exists k,
       sets (log (final r)) = assign (firstn k (symbols input)))
    /\ Forall (fun v => 0 <= v <= 25) (symbols input)
    /\ (returned r <> None ->
        sets (log (final r)) = assign (symbols input)).
Proof.
  intros fuel argc argv input r.
  set (cap := if argc >? 1 then 1 else 0).
  set (x0 := if argc >? 1
             then with_w D (mk_vcd D true (buffer (w (init_world D input))))
                    (init_world D input)
             else init_world D input).
  assert (Hs0 : stdin x0 = input)
    by (unfold x0; destruct (argc >? 1); reflexivity).
  assert (Hl0 : log x0 = [])
    by (unfold x0; destruct (argc >? 1); reflexivity).
  destruct (main_loop_sets fuel fuel cap 0 0 x0) as (k & Hk & Hc).
  rewrite Hs0, Hl0 in Hk. rewrite Hs0 in Hc. cbn [app] in Hk.
  assert (Hlog : log (final r)
                 = log (final (main_loop D fuel fuel cap 0 0 0 x0)))
    by (subst r; apply main_log).
  split; [exists k; rewrite Hlog; exact Hk|].
  split; [apply symbols_bounds|].
  intros Hr. rewrite Hlog, Hk, Hc; [reflexivity | | lia].
  intros E. apply Hr. subst r. rewrite main_eq. cbv zeta.
  fold cap. fold x0.
  destruct (main_loop D fuel fuel cap 0 0 0 x0); [discriminate E|].
  reflexivity.
Qed.

(** * The samples and the trace file *)








(** X5: a trace file is written only when [main] returns with capture
    enabled (more than one argument): then exactly one file is written, to
    the path of the first argument, with the buffer of the recorder as it is
    after the loop.  A run without that argument, and a run that does not
    return, write no file. *)
Theorem trace_file_written_once :
  forall fuel argc argv input,
    let r := main D fuel argc argv (init_world D input) in
    files (final r)
    = match returned r with
      | Some _ =>
          if argc >? 1
          then [(nth 1 argv EmptyString, buffer (w (final r)))]
          else []
      | None => []
      end.
Proof.
  intros fuel argc argv input r. subst r. rewrite main_eq. cbv zeta.
  set (cap := if argc >? 1 then 1 else 0).
  set (x0 := if argc >? 1 then _ else _).
  assert (H : (fun y : world D => files y = [])
                (final (main_loop D fuel fuel cap 0 0 0 x0))).
  { apply main_loop_invariant.
    - intros y y' (_ & _ & F3 & _) A. rewrite F3. exact A.
    - intros j y A.
      destruct (full_tick_facts cap j y) as (_ & _ & F3 & _).
      rewrite F3. exact A.
    - unfold x0. destruct (argc >? 1); reflexivity. }
  cbv beta in H.
  destruct (main_loop D fuel fuel cap 0 0 0 x0) as [a y|y];
    cbn [final returned] in *; [|exact H].
  destruct (argc >? 1); [|exact H].
  cbn [write_file print files w]. rewrite H. reflexivity.
Qed.

(** * The clock lines *)

(** X6: a half-tick leaves the external clock at the level it was given and
    the testbench-domain clock at 1, and changes nothing of the stimulus
    ports, the input, the trace recorder and the files; so after the two
    half-ticks of a full tick both clocks are at 1 and the design has seen
    the testbench-domain clock at 1 in its first advance of the second
    half-tick. *)
Theorem half_tick_clock_levels :
  forall sync_clk (x : world D),
    let x' := final (viterbi_clock_and_output D sync_clk x) in
    let x'' := final (viterbi_clock_and_output D 1
                        (final (viterbi_clock_and_output D 0 x))) in
    p_clk (top x') = sync_clk
    /\ p_sync__tb__clk (top x') = 1
    /\ p_x0 (top x') = p_x0 (top x)
    /\ p_x1 (top x') = p_x1 (top x)
    /\ stdin x' = stdin x /\ w x' = w x /\ files x' = files x
    /\ p_clk (top x'') = 1
    /\ p_sync__tb__clk (top x'') = 1
    /\ top x'' = tick_top D (top x)
    /\ p_sync__tb__clk (with_clk D 1 (top (final
                          (viterbi_clock_and_output D 0 x)))) = 1.
Proof.
  intros sync_clk x x' x''. subst x' x''. rewrite !clock_and_output_eq.
  cbn [final half_tick top stdin w files].
  destruct (clocked_inputs sync_clk (top x)) as [A0 A1].
  assert (C : forall l (t : p_top (dstate D)),
            p_clk (clocked D l t) = l
            /\ p_sync__tb__clk (clocked D l t) = 1).
  { intros l t. unfold clocked. cbn [with_tb_clk p_clk p_sync__tb__clk].
    destruct (step_inputs (with_tb_clk D 0 (step D (with_clk D l t))))
      as (_ & _ & -> & _).
    cbn [with_tb_clk p_clk].
    destruct (step_inputs (with_clk D l t)) as (_ & _ & -> & _).
    split; reflexivity. }
  destruct (C sync_clk (top x)) as [C0 C1].
  destruct (C 1 (clocked D 0 (top x))) as [C2 C3].
  destruct (C 0 (top x)) as [_ C4].
  repeat split; assumption.
Qed.

(** * Runs on an input without a stop byte *)

(** A call with no stop byte ahead and fuel for the whole input: it reads
    the first symbol, or it uses up the input and does not return. *)
Lemma getc_exhaust s : forall fuel val (x : world D),
  stdin x = s ->
  Forall (fun b => is_stop (code b) = false) s ->
  (List.length s < fuel)%nat ->
  (symbols s = []
   /\ exists x', viterbi_getc_value D fuel val x = Timeout x'
                 /\ stdin x' = [])
  \/ (exists ws c s',
        s = ws ++ c :: s'
        /\ symbols s = symbol_value (code c) :: symbols s'
        /\ viterbi_getc_value D fuel val x
           = Ok 0 (wrote D val (symbol_value (code c))
                     (consumed D (ws ++ [c]) s' x))).
Proof.
  induction s as [|c s IH]; intros fuel val x Hs Hn Hf.
  - left. split; [reflexivity|].
    destruct (getc_eof_log fuel val x Hs) as (x' & E & _ & S').
    exists x'. split; assumption.
  - destruct fuel as [|fuel]; [cbn in Hf; lia|].
    inversion Hn as [|? ? Hc Hn']; subst.
    destruct (nonstop_cases _ Hc) as [Hm|Hbl].
    + right. exists [], c, s. split; [reflexivity|].
      split; [cbn [symbols]; rewrite Hm; reflexivity|].
      rewrite (getc_symbol _ _ _ _ _ Hs Hm). reflexivity.
    + rewrite (getc_unfold _ _ _ _ _ Hs).
      destruct (blank_not_symbol _ Hbl) as [Ed El]. rewrite Ed, El, Hbl.
      assert (Hf' : (List.length s < fuel)%nat) by (cbn in Hf; lia).
      destruct (IH fuel val (read D (code c) s x) eq_refl Hn' Hf')
        as [[S0 E]|(ws & c' & s' & P & S0 & E)].
      * left. split; [cbn [symbols]; rewrite Ed, El, Hbl; exact S0|].
        exact E.
      * right. exists (c :: ws), c', s'. split; [rewrite P; reflexivity|].
        split; [cbn [symbols]; rewrite Ed, El, Hbl; exact S0|].
        rewrite E, consumed_cons. reflexivity.
Qed.

Lemma getc_timeout_clk fuel val (x x' : world D) :
  viterbi_getc_value D fuel val x = Timeout x' ->
  count is_clk_high (log x') = count is_clk_high (log x).
Proof.
  intros E. pose proof (getc_frame fuel val x) as F. rewrite E in F.
  cbn [final] in F. destruct F as (_ & _ & _ & l & L1 & L2).
  rewrite L1, count_app, (count_decoder_events _ l); [lia | | exact L2].
  intros [] H; try discriminate H; reflexivity.
Qed.

Lemma main_loop_exhaust n : forall s fuel gfuel cap i j (x : world D),
  (List.length s < n)%nat ->
  stdin x = s ->
  Forall (fun b => is_stop (code b) = false) s ->
  i < 256 ->
  (List.length s < gfuel)%nat ->
  (List.length s < fuel)%nat ->
  exists x',
    main_loop D fuel gfuel cap i 0 j x = Timeout x'
    /\ stdin x' = []
    /\ count is_clk_high (log x')
       = count is_clk_high (log x)
         + Z.of_nat (List.length (symbols s) / 2)
    /\ sets (log x') = sets (log x) ++ assign (symbols s).
Proof.
  induction n as [|n IH]; intros s fuel gfuel cap i j x Hn Hs Hp Hi Hg Hf;
    [lia|].
  destruct fuel as [|fuel]; [lia|].
  rewrite main_loop_unfold. destruct (Z.ltb_spec i 256); [|lia].
  unfold refill, bind. cbn [Z.eqb].
  destruct (getc_exhaust s gfuel X0 x Hs Hp Hg)
    as [(S0 & x1 & E0 & T0)|(ws & c & s1 & P & S0 & E0)].
  - rewrite E0. exists x1. split; [reflexivity|]. split; [exact T0|].
    rewrite (getc_timeout_clk _ _ _ _ E0), (getc_timeout_sets _ _ _ _ E0), S0.
    cbn. rewrite app_nil_r. split; [lia | reflexivity].
  - rewrite E0. cbn [Z.eqb].
    set (x1 := wrote D X0 (symbol_value (code c))
                 (consumed D (ws ++ [c]) s1 x)) in *.
    assert (Hp1 : Forall (fun b => is_stop (code b) = false) s1).
    { rewrite P in Hp. apply Forall_app in Hp. destruct Hp as [_ Hp].
      inversion Hp; assumption. }
    assert (Hl : List.length s = (List.length ws + 1 + List.length s1)%nat).
    { rewrite P, length_app. cbn. lia. }
    assert (Hg1 : (List.length s1 < gfuel)%nat) by lia.
    assert (Hlog1 : log x1 = log x
                      ++ map (fun b => EvGetchar (code b)) (ws ++ [c])
                      ++ [EvSet X0 (symbol_value (code c))]).
    { unfold x1. cbn [wrote consumed emit upd_top log].
      rewrite <- app_assoc. reflexivity. }
    destruct (getc_exhaust s1 gfuel X1 x1 eq_refl Hp1 Hg1)
      as [(S1 & x2 & E1 & T1)|(ws1 & c1 & s2 & P1 & S1 & E1)].
    + rewrite E1. exists x2. split; [reflexivity|]. split; [exact T1|].
      rewrite (getc_timeout_clk _ _ _ _ E1), (getc_timeout_sets _ _ _ _ E1).
      rewrite Hlog1, !count_app, !sets_app, sets_getchars, S0, S1.
      rewrite (count_getchars_none is_clk_high) by reflexivity.
      rewrite count_one. cbn. split; [lia | reflexivity].
    + rewrite E1. unfold ret. cbv zeta. cbn [fst snd Z.eqb].
      set (x2 := wrote D X1 (symbol_value (code c1))
                   (consumed D (ws1 ++ [c1]) s2 x1)) in *.
      assert (Hp2 : Forall (fun b => is_stop (code b) = false) s2).
      { rewrite P1 in Hp1. apply Forall_app in Hp1. destruct Hp1 as [_ Hp1].
        inversion Hp1; assumption. }
      assert (Hl1 : List.length s1
                    = (List.length ws1 + 1 + List.length s2)%nat).
      { rewrite P1, length_app. cbn. lia. }
      destruct (full_tick_facts cap j x2) as (_ & G2 & _ & _ & G5 & _).
      destruct (full_tick D cap (j, x2)) as [j1 x3]. cbn [fst snd] in *.
      assert (Hs3 : stdin x3 = s2) by (rewrite G2; reflexivity).
      assert (Hn2 : (List.length s2 < n)%nat) by lia.
      assert (Hg2 : (List.length s2 < gfuel)%nat) by lia.
      assert (Hf2 : (List.length s2 < fuel)%nat) by lia.
      assert (Hi1 : 0 + 1 < 256) by lia.
      destruct (IH s2 fuel gfuel cap (0 + 1) j1 x3 Hn2 Hs3 Hp2 Hi1 Hg2 Hf2)
        as (x' & R1 & R2 & R3 & R4).
      exists x'. split; [exact R1|]. split; [exact R2|].
      destruct (count_tick_events cap j (top x2))
        as (_ & _ & C3 & _ & _ & _ & C7).
      assert (Hlog2 : log x2 = log x1
                        ++ map (fun b => EvGetchar (code b)) (ws1 ++ [c1])
                        ++ [EvSet X1 (symbol_value (code c1))]).
      { unfold x2. cbn [wrote consumed emit upd_top log].
        rewrite <- app_assoc. reflexivity. }
      rewrite R3, R4, G5, Hlog2, Hlog1.
      rewrite !count_app, !sets_app, C3, (sets_none _ C7).
      rewrite !sets_getchars, S0, S1.
      rewrite !(count_getchars_none is_clk_high) by reflexivity.
      rewrite !count_one.
      cbn [List.length assign sets is_clk_high app].
      rewrite !app_nil_r, <- !app_assoc. cbn [app].
      split; [|reflexivity].
      change (S (S (List.length (symbols s2))))
        with (2 + List.length (symbols s2))%nat.
      replace ((2 + List.length (symbols s2)) / 2)%nat
        with (S (List.length (symbols s2) / 2))%nat; [lia|].
      change (2 + List.length (symbols s2))%nat
        with (1 * 2 + List.length (symbols s2))%nat.
      rewrite Nat.div_add_l by lia. reflexivity.
Qed.

(** X9: on an input without a stop byte and with fuel for it, the run reads
    the whole input, writes every symbol to its port, makes one full tick
    for each whole pair of symbols and then stays in the decoder at the end
    of the input: [main] does not return, and a last symbol without a
    partner is written to X0 and adds no tick. *)
Theorem run_without_stop_byte :
  forall input fuel argc argv,
    Forall (fun b => is_stop (code b) = false) input ->
    (List.length input < fuel)%nat ->
    let r := main D fuel argc argv (init_world D input) in
    returned r = None
    /\ stdin (final r) = []
    /\ count is_clk_high (log (final r))
       = Z.of_nat (List.length (symbols input) / 2)
    /\ sets (log (final r)) = assign (symbols input)
    /\ files (final r) = [].
Proof.
  intros input fuel argc argv Hp Hf r. subst r. rewrite main_eq. cbv zeta.
  set (cap := if argc >? 1 then 1 else 0).
  set (x0 := if argc >? 1 then _ else _).
  assert (Hs0 : stdin x0 = input)
    by (unfold x0; destruct (argc >? 1); reflexivity).
  assert (Hl0 : log x0 = [])
    by (unfold x0; destruct (argc >? 1); reflexivity).
  assert (Hi : 0 < 256) by lia.
  assert (Hn : (List.length input < S (List.length input))%nat) by lia.
  assert (H : (fun y : world D => files y = [])
                (final (main_loop D fuel fuel cap 0 0 0 x0))).
  { apply main_loop_invariant.
    - intros y y' (_ & _ & F3 & _) A. rewrite F3. exact A.
    - intros j y A.
      destruct (full_tick_facts cap j y) as (_ & _ & F3 & _).
      rewrite F3. exact A.
    - unfold x0. destruct (argc >? 1); reflexivity. }
  cbv beta in H.
  destruct (main_loop_exhaust (S (List.length input)) input fuel fuel cap
              0 0 x0 Hn Hs0 Hp Hi Hf Hf)
    as (x' & R1 & R2 & R3 & R4).
  rewrite R1 in *. cbn [returned final] in *. rewrite Hl0 in R3, R4.
  cbn in R3, R4. repeat split; assumption.
Qed.

End Properties.

(** * Runs on the small designs *)

(** The claim C2 says that the run on the input 12 ends after one tick.  It
    does not end: no amount of fuel makes [main] return; with fuel 300 it has
    made one full tick and is reading the end of the input over and over. *)
Lemma run_12_never_returns :
  ~ (exists fuel, returned (run_toy fuel 1 [] "12") <> None)
  /\ count is_clk_high (log (final (run_toy 300 1 [] "12"))) = 1
  /\ stdin (final (run_toy 300 1 [] "12")) = [].
Proof.
  split.
  - intros [fuel H]. apply H. unfold run_toy. apply main_no_exit.
    repeat constructor.
  - vm_compute. split; reflexivity.
Qed.

Lemma run_12_then_stop_witness :
  returned (run_toy 300 1 [] "12!") = Some 0
  /\ count is_clk_high (log (final (run_toy 300 1 [] "12!"))) = 256.
Proof.
  assert (H1 : is_stop (code x21) = true) by reflexivity.
  assert (H2 : (257 <= 300)%nat) by lia.
  pose proof (run_12_then_stop toy x21 [] 300 1 [] H1 H2) as H.
  cbv zeta in H. destruct H as (A & _ & _ & _ & B & _).
  split; [exact A | exact B].
Defined.

(** The claim C3 counts four samples for each full tick.  The run on 12!
    with capture enabled makes 256 full ticks and takes 512 samples. *)
Lemma samples_are_not_four_per_tick :
  returned (run_toy 300 2 ["tb"; "out.vcd"]%string "12!") = Some 0
  /\ count is_clk_high
       (log (final (run_toy 300 2 ["tb"; "out.vcd"]%string "12!"))) = 256
  /\ count is_sample
       (log (final (run_toy 300 2 ["tb"; "out.vcd"]%string "12!"))) = 512
  /\ count is_sample
       (log (final (run_toy 300 2 ["tb"; "out.vcd"]%string "12!")))
     <> 4 * count is_clk_high
              (log (final (run_toy 300 2 ["tb"; "out.vcd"]%string "12!"))).
Proof. vm_compute. repeat split; discriminate. Qed.

(** The claim C4 says that a pair with X0 filled and X1 not is never clocked.
    On the input c! the write of 2 to X0 and the read of the stop byte are
    followed by 1024 advances of the design, and the first line printed is
    20: the output of the design for X0 = 2 and X1 = 0. *)
Lemma half_filled_pair_reaches_design :
  firstn 3 (log (final (run_toy 300 1 [] "c!")))
  = [EvGetchar 99; EvSet X0 2; EvGetchar 33]
  /\ count is_step (skipn 3 (log (final (run_toy 300 1 [] "c!")))) = 1024
  /\ count is_step (skipn 3 (log (final (run_toy 300 1 [] "c!")))) <> 0
  /\ substring 0 3 (stdout (final (run_toy 300 1 [] "c!")))
     = ("20" ++ newline)%string.
Proof. vm_compute. repeat split; discriminate. Qed.

Lemma half_filled_pair_is_clocked_witness :
  returned (main_loop toy 300 5 0 0 0 0 (init_world toy (bytes "c!")))
  = Some (-1, 0)
  /\ p_x1 (top (final (main_loop toy 300 5 0 0 0 0
                         (init_world toy (bytes "c!"))))) = 0.
Proof.
  set (x := init_world toy (bytes "c!")).
  set (x1 := final (viterbi_getc_value toy 5 X0 x)).
  set (x2 := final (viterbi_getc_value toy 5 X1 x1)).
  assert (Hi : 0 < 256) by lia.
  assert (H0 : viterbi_getc_value toy 5 X0 x = Ok 0 x1) by reflexivity.
  assert (H1 : viterbi_getc_value toy 5 X1 x1 = Ok (-1) x2) by reflexivity.
  assert (Hf : (256 < 300)%nat) by lia.
  pose proof (half_filled_pair_is_clocked toy 300 5 0 0 0 x x1 x2 Hi H0 H1 Hf)
    as H.
  cbv zeta in H. destruct H as (A & _ & B & _).
  split; [exact A | exact B].
Defined.

(** The claim C5 has an advance of the design after each of the three
    assignments.  A half-tick has two: the event after the raise of the
    testbench-domain clock is the read of the outputs. *)
Lemma no_advance_after_raise :
  nth_error (log (final (viterbi_clock_and_output toy 0 (init_world toy []))))
            4 = Some (EvTbClk 1)
  /\ nth_error (log (final (viterbi_clock_and_output toy 0
                              (init_world toy [])))) 5
     = Some (EvGet 0 0)
  /\ nth_error (log (final (viterbi_clock_and_output toy 0
                              (init_world toy [])))) 5
     <> Some EvStep
  /\ count is_step (log (final (viterbi_clock_and_output toy 0
                                  (init_world toy [])))) = 2.
Proof. vm_compute. repeat split; discriminate. Qed.

Lemma port_overflow_is_masked_witness :
  returned (viterbi_getc_value narrow 1 X0 (init_world narrow (bytes "z")))
  = Some 0
  /\ p_x0 (top (final (viterbi_getc_value narrow 1 X0
                         (init_world narrow (bytes "z"))))) = 1.
Proof.
  assert (Hw : 0 <= port_bits narrow X0) by (cbn; lia).
  assert (Hm : is_digit (code x7a) || is_letter (code x7a) = true)
    by reflexivity.
  pose proof (port_overflow_is_masked narrow 0 X0 (init_world narrow [])
                x7a [] Hw Hm) as H.
  cbv zeta in H. destruct H as (A & B & _).
  split; [exact A | exact B].
Defined.

Lemma viterbi_getc_value_classifies_witness :
  returned (viterbi_getc_value toy 1 X0 (init_world toy (bytes "7"))) = Some 0
  /\ returned (viterbi_getc_value toy 1 X1 (init_world toy (bytes "z")))
     = Some 0
  /\ viterbi_getc_value toy 2 X0 (init_world toy (bytes " 7"))
     = viterbi_getc_value toy 1 X0
         (read toy 32 (bytes "7") (init_world toy []))
  /\ returned (viterbi_getc_value toy 1 X0 (init_world toy (bytes "!")))
     = Some (-1)
  /\ exists ws b s,
       bytes " 7x" = ws ++ b :: s
       /\ Forall (fun b => is_blank (code b) = true) ws
       /\ is_digit (code b) || is_letter (code b) = true
       /\ s = bytes "x".
Proof.
  pose proof (viterbi_getc_value_classifies toy 0 X0 (init_world toy [])
                x37 []) as H7.
  pose proof (viterbi_getc_value_classifies toy 0 X1 (init_world toy [])
                x7a []) as Hz.
  pose proof (viterbi_getc_value_classifies toy 1 X0 (init_world toy [])
                x20 (bytes "7")) as Hb.
  pose proof (viterbi_getc_value_classifies toy 0 X0 (init_world toy [])
                x21 []) as Hs.
  pose proof (viterbi_getc_value_classifies toy 3 X0
                (init_world toy (bytes " 7x")) x20 []) as Hc.
  cbv zeta in *.
  destruct H7 as (H7 & _). destruct Hz as (_ & Hz & _).
  destruct Hb as (_ & _ & Hb & _). destruct Hs as (_ & _ & _ & Hs & _).
  destruct Hc as (_ & _ & _ & _ & Hc).
  split; [exact (f_equal returned (H7 eq_refl))|].
  split; [exact (f_equal returned (Hz eq_refl))|].
  split; [exact (Hb eq_refl)|].
  split; [exact (f_equal returned (Hs eq_refl))|].
  destruct (Hc _ eq_refl) as (ws & b & s & E1 & E2 & E3 & E4 & _).
  exists ws, b, s. cbn in E4. subst s.
  split; [exact E1|]. split; [exact E2|]. split; [exact E3|].
  reflexivity.
Defined.

Lemma blanks_do_not_change_symbols_witness :
  written (log (decode_calls toy 5 6 X0 (init_world toy (bytes "1 2 z"))))
  = written (log (decode_calls toy 5 4 X0 (init_world toy (bytes "12z"))))
  /\ written (log (decode_calls toy 5 4 X0 (init_world toy (bytes "12z"))))
     = [1; 2; 25].
Proof.
  assert (Hi : blanks_inserted (bytes "12z") (bytes "1 2 z")).
  { apply bi_keep. apply bi_blank; [reflexivity|].
    apply bi_keep. apply bi_blank; [reflexivity|].
    apply bi_keep. apply bi_nil. }
  assert (Hf : (List.length (bytes "12z") < 4)%nat) by (cbn; lia).
  assert (Hf' : (List.length (bytes "1 2 z") < 6)%nat) by (cbn; lia).
  pose proof (blanks_do_not_change_symbols toy (bytes "12z") (bytes "1 2 z")
                5 4 6 X0 (init_world toy []) Hi Hf Hf') as H.
  destruct H as [A B]. split; [exact A | exact B].
Defined.

Lemma ticks_after_stop_witness :
  returned (main_loop toy 300 5 1 0 (-1) 0 (init_world toy (bytes "!4")))
  = Some (-1, 512)
  /\ stdin (final (main_loop toy 300 5 1 0 (-1) 0
                     (init_world toy (bytes "!4")))) = bytes "!4"
  /\ returned (main_loop toy 300 5 1 0 0 0 (init_world toy (bytes "!4")))
     = Some (-1, 512)
  /\ stdin (final (main_loop toy 300 5 1 0 0 0
                     (init_world toy (bytes "!4")))) = bytes "4".
Proof.
  set (x := init_world toy (bytes "!4")).
  set (x' := final (viterbi_getc_value toy 5 X0 x)).
  assert (Hin : -1 <> 0) by lia.
  assert (Hi : 0 <= 0 <= 256) by lia.
  assert (Hlt : 0 < 256) by lia.
  assert (Hf : (Z.to_nat (256 - 0) < 300)%nat) by lia.
  assert (H0 : viterbi_getc_value toy 5 X0 x = Ok (-1) x') by reflexivity.
  pose proof (ticks_after_stop toy 300 5 1 0 (-1) 0 x Hi Hf) as H.
  cbv zeta in H. destruct H as (HA & HB).
  destruct (HA Hin) as (A & _ & B & _).
  destruct (HB (-1) x' Hlt H0 Hin) as (C & _ & E & _).
  split; [exact A|]. split; [exact B|]. split; [exact C | exact E].
Defined.

(** ** Whole runs on the small design *)

Lemma main_returns_iff_stop_byte_witness :
  (exists fuel, returned (run_toy fuel 1 [] "12!") <> None)
  /\ has_stop (bytes "12") = false.
Proof.
  assert (H : has_stop (bytes "12!") = true) by reflexivity.
  split; [|reflexivity].
  exact (proj2 (main_returns_iff_stop_byte toy 1 [] (bytes "12!")) H).
Defined.

Lemma run_length_with_stop_byte_witness :
  returned (run_toy 300 1 [] "1 2abc!xy") = Some 0
  /\ stdin (final (run_toy 300 1 [] "1 2abc!xy")) = bytes "xy"
  /\ count is_getchar (log (final (run_toy 300 1 [] "1 2abc!xy"))) = 7
  /\ count is_clk_high (log (final (run_toy 300 1 [] "1 2abc!xy"))) = 258.
Proof.
  assert (Hp : Forall (fun b => is_stop (code b) = false) (bytes "1 2abc"))
    by (repeat constructor).
  assert (Hb : is_stop (code x21) = true) by reflexivity.
  assert (Hf : (List.length (bytes "1 2abc") + 257 <= 300)%nat)
    by (cbn; lia).
  pose proof (run_length_with_stop_byte toy (bytes "1 2abc") x21 (bytes "xy")
                300 1 [] Hp Hb Hf) as H.
  cbv zeta in H. destruct H as (A & B & C & E).
  split; [exact A|]. split; [exact B|]. split; [exact C | exact E].
Defined.

Lemma ports_are_filled_in_turn_witness :
  sets (log (final (run_toy 300 1 [] "1 2abc!")))
  = [(X0, 1); (X1, 2); (X0, 0); (X1, 1); (X0, 2)].
Proof.
  pose proof (ports_are_filled_in_turn toy 300 1 [] (bytes "1 2abc!")) as H.
  cbv zeta in H. destruct H as (_ & _ & H).
  assert (Hr : returned (main toy 300 1 [] (init_world toy (bytes "1 2abc!")))
               <> None) by (vm_compute; discriminate).
  exact (H Hr).
Defined.

Lemma decoder_touches_its_port_only_witness :
  p_x1 (top (final (viterbi_getc_value toy 5 X0
                      (init_world toy (bytes " z!")))))
  = p_x1 (top (init_world toy (bytes " z!")))
  /\ stdout (final (viterbi_getc_value toy 5 X0
                      (init_world toy (bytes " z!"))))
     = stdout (init_world toy (bytes " z!")).
Proof.
  set (x := init_world toy (bytes " z!")).
  set (x' := final (viterbi_getc_value toy 5 X0 x)).
  assert (H0 : viterbi_getc_value toy 5 X0 x = Ok 0 x') by reflexivity.
  pose proof (decoder_touches_its_port_only toy 5 X0 0 x x' H0) as H.
  destruct H as (_ & _ & _ & _ & _ & A & B & _).
  assert (N : X1 <> X0) by discriminate.
  split; [exact (A X1 N) | exact B].
Defined.

Lemma decoder_returns_iff_nonblank_ahead_witness :
  (exists fuel,
     returned (viterbi_getc_value toy fuel X0 (init_world toy (bytes "  7")))
     <> None)
  /\ has_nonblank (bytes "  ") = false.
Proof.
  assert (H : has_nonblank (stdin (init_world toy (bytes "  7"))) = true)
    by reflexivity.
  split; [|reflexivity].
  exact (proj2 (decoder_returns_iff_nonblank_ahead toy X0
                  (init_world toy (bytes "  7"))) H).
Defined.

Lemma run_without_stop_byte_witness :
  returned (run_toy 10 1 [] "123") = None
  /\ stdin (final (run_toy 10 1 [] "123")) = []
  /\ count is_clk_high (log (final (run_toy 10 1 [] "123"))) = 1
  /\ sets (log (final (run_toy 10 1 [] "123")))
     = [(X0, 1); (X1, 2); (X0, 3)].
Proof.
  assert (Hp : Forall (fun b => is_stop (code b) = false) (bytes "123"))
    by (repeat constructor).
  assert (Hf : (List.length (bytes "123") < 10)%nat) by (cbn; lia).
  pose proof (run_without_stop_byte toy (bytes "123") 10 1 [] Hp Hf) as H.
  cbv zeta in H. destruct H as (A & B & C & E & _).
  split; [exact A|]. split; [exact B|]. split; [exact C | exact E].
Defined.
